(** * scrape_youtube_channels.py: a shallow embedding and its properties

    The script lists the videos of a playlist page by page ([get_videos]),
    fetches view counts in batches of fifty ([get_view_counts]), merges the
    two ([get_video_data]) and writes one CSV file per channel
    ([write_data]).

    Python dictionaries with string keys are [gmap string string]; the two
    remote endpoints are deterministic responders whose answer may depend
    on everything that was asked before; every request is recorded in a
    log, so that the number and the order of the requests can be stated.
    Strings stand for their UTF-8 byte sequences. *)

From stdpp Require Import gmap strings pretty list fin_maps.
From Stdlib Require Import Ascii Zify ZifyNat.

(** Linear arithmetic that also knows quotients and remainders. *)
Ltac Zify.zify_post_hook ::= Z.to_euclidean_division_equations.

(** ** Constants of the module *)

Definition BASE_URL : string := "https://www.googleapis.com/youtube/v3/playlistItems".
Definition VIDEO_BASE_URL : string := "https://www.youtube.com/watch?v=".
Definition VIDEO_DETAILS_URL : string := "https://www.googleapis.com/youtube/v3/videos".

(** ** Requests and responses *)

(** The [params] dictionary of [get_videos]; [pageToken] is absent on the
    first request. *)
Record PlaylistParams := {
  pl_part : string;
  pl_playlistId : string;
  pl_maxResults : nat;
  pl_key : option string;
  pl_pageToken : option string
}.

(** One element of [data['items']] of the listing endpoint:
    [item['snippet']['title']] and [item['snippet']['resourceId']['videoId']]. *)
Record PlaylistItem := {
  snippet_title : string;
  snippet_videoId : string
}.

(** The parsed body of a listing response; [nextPageToken] is what
    [data.get('nextPageToken')] returns. *)
Record PlaylistPage := {
  items : list PlaylistItem;
  nextPageToken : option string
}.

(** The [params] dictionary of [get_view_counts]. *)
Record VideosParams := {
  vp_part : string;
  vp_id : string;
  vp_key : option string
}.

(** One element of [data['items']] of the statistics endpoint:
    [item['id']] and [item['statistics']['viewCount']]. *)
Record VideoItem := {
  item_id : string;
  viewCount : string
}.

Record VideosPage := {
  stat_items : list VideoItem
}.

(** The outside world: the environment variable read into [API_KEY] and the
    two endpoints.  An endpoint sees the requests made to it so far and the
    current one; [None] stands for a transport failure or a body lacking a
    field the code indexes, both of which raise. *)
Record World := {
  API_KEY : option string;
  playlistItems_api : list PlaylistParams -> PlaylistParams -> option PlaylistPage;
  videos_api : list VideosParams -> VideosParams -> option VideosPage
}.

(** The requests issued so far, oldest first. *)
Record Log := {
  listing_log : list PlaylistParams;
  stats_log : list VideosParams
}.

Definition empty_log : Log := {| listing_log := []; stats_log := [] |}.

(** ** Computations that talk to the network *)

Inductive outcome (A : Type) : Type :=
| Returns (a : A) (log : Log)
| Raises (log : Log)
| OutOfFuel.
Arguments Returns {A} a log.
Arguments Raises {A} log.
Arguments OutOfFuel {A}.

Definition Net (A : Type) : Type := Log -> outcome A.

Definition ret {A} (a : A) : Net A := fun log => Returns a log.

Definition bind {A B} (m : Net A) (k : A -> Net B) : Net B :=
  fun log =>
    match m log with
    | Returns a log' => k a log'
    | Raises log' => Raises log'
    | OutOfFuel => OutOfFuel
    end.

(** A lookup that raises [KeyError] when it finds nothing. *)
Definition lift {A} (o : option A) : Net A :=
  fun log => match o with Some a => Returns a log | None => Raises log end.

Notation "x <- m ;; k" := (bind m (fun x => k))
  (at level 100, m at next level, right associativity).

(** [requests.get(BASE_URL, params=params)] followed by [response.json()]. *)
Definition requests_get_playlistItems (w : World) (params : PlaylistParams) : Net PlaylistPage :=
  fun log =>
    let log' := {| listing_log := listing_log log ++ [params];
                   stats_log := stats_log log |} in
    match playlistItems_api w (listing_log log) params with
    | Some data => Returns data log'
    | None => Raises log'
    end.

(** [requests.get(VIDEO_DETAILS_URL, params=params)] followed by
    [response.json()]. *)
Definition requests_get_videos (w : World) (params : VideosParams) : Net VideosPage :=
  fun log =>
    let log' := {| listing_log := listing_log log;
                   stats_log := stats_log log ++ [params] |} in
    match videos_api w (stats_log log) params with
    | Some data => Returns data log'
    | None => Raises log'
    end.

(** ** get_videos *)

(** Truth value of [data.get('nextPageToken')]: [None] and the empty string
    are false. *)
Definition truthy (tok : option string) : bool :=
  match tok with
  | Some (String _ _) => true
  | _ => false
  end.

(** The dictionary appended for one item. *)
Definition video_of_item (item : PlaylistItem) : gmap string string :=
  {[ "title" := snippet_title item;
     "video_url" := VIDEO_BASE_URL +:+ snippet_videoId item;
     "video_id" := snippet_videoId item ]}.

(** The [for item in data['items']] loop. *)
Definition extend_videos (videos : list (gmap string string)) (its : list PlaylistItem)
  : list (gmap string string) :=
  foldl (fun vs item => vs ++ [video_of_item item]) videos its.

Definition set_pageToken (params : PlaylistParams) (tok : option string) : PlaylistParams :=
  {| pl_part := pl_part params;
     pl_playlistId := pl_playlistId params;
     pl_maxResults := pl_maxResults params;
     pl_key := pl_key params;
     pl_pageToken := tok |}.

(** The [while True] loop; one unit of fuel per request. *)
Fixpoint get_videos_loop (fuel : nat) (w : World) (params : PlaylistParams)
    (videos : list (gmap string string)) : Net (list (gmap string string)) :=
  match fuel with
  | O => fun _ => OutOfFuel
  | S fuel' =>
      data <- requests_get_playlistItems w params ;;
      let videos' := extend_videos videos (items data) in
      let next_page_token := nextPageToken data in
      if truthy next_page_token
      then get_videos_loop fuel' w (set_pageToken params next_page_token) videos'
      else ret videos'
  end.

Definition initial_params (w : World) (playlist_id : string) : PlaylistParams :=
  {| pl_part := "snippet";
     pl_playlistId := playlist_id;
     pl_maxResults := 50;
     pl_key := API_KEY w;
     pl_pageToken := None |}.

Definition get_videos (fuel : nat) (w : World) (playlist_id : string)
  : Net (list (gmap string string)) :=
  get_videos_loop fuel w (initial_params w playlist_id) [].

(** ** get_view_counts *)

(** The [for item in data['items']] loop filling [stats]; a later item with
    the same id overwrites an earlier one. *)
Definition collect_stats (stats : gmap string string) (its : list VideoItem)
  : gmap string string :=
  foldl (fun st item => <[item_id item := viewCount item]> st) stats its.

Definition get_view_counts (w : World) (video_ids : list string)
  : Net (gmap string string) :=
  let id_string := String.concat "," video_ids in
  let params := {| vp_part := "statistics"; vp_id := id_string; vp_key := API_KEY w |} in
  data <- requests_get_videos w params ;;
  ret (collect_stats ∅ (stat_items data)).

(** ** get_video_data *)

Definition batch_size : nat := 50.

(** [range(start, stop, step)] for a positive step: its length is
    [(stop - start + step - 1) // step] and its k-th element
    [start + k * step]. *)
Definition range (start stop step : nat) : list nat :=
  (fun k => start + k * step) <$> seq 0 ((stop - start + step - 1) / step).

(** [l[i:j]] for [i <= j]. *)
Definition slice {A} (l : list A) (i j : nat) : list A := take (j - i) (drop i l).

(** The inner [for video in batch] loop.  [video['video_id']] raises when
    the key is missing. *)
Fixpoint merge_batch (view_counts : gmap string string)
    (batch final_data : list (gmap string string)) : option (list (gmap string string)) :=
  match batch with
  | [] => Some final_data
  | video :: rest =>
      match video !! "video_id" with
      | None => None
      | Some vid =>
          let views := default "0" (view_counts !! vid) in
          let video' := <["views" := views]> video in
          merge_batch view_counts rest (final_data ++ [video'])
      end
  end.

(** The outer [for i in range(0, len(videos), batch_size)] loop, over the
    list of start indices.  The dictionaries changed by a batch belong to
    that batch's slice only, and the slices are disjoint, so later batches
    read [videos] as it was.  [time.sleep(0.4)] has no effect on the
    data. *)
Fixpoint batch_loop (w : World) (videos : list (gmap string string)) (starts : list nat)
    (final_data : list (gmap string string)) : Net (list (gmap string string)) :=
  match starts with
  | [] => ret final_data
  | i :: starts' =>
      let batch := slice videos i (i + batch_size) in
      video_ids <- lift (mapM (fun vid : gmap string string => vid !! "video_id") batch) ;;
      view_counts <- get_view_counts w video_ids ;;
      final_data' <- lift (merge_batch view_counts batch final_data) ;;
      batch_loop w videos starts' final_data'
  end.

Definition get_video_data (fuel : nat) (w : World) (playlist_id : string)
  : Net (list (gmap string string)) :=
  videos <- get_videos fuel w playlist_id ;;
  batch_loop w videos (range 0 (length videos) batch_size) [].

(** ** The csv module, excel dialect

    [csv.DictWriter] is used with its defaults: delimiter [,], quote
    character 34, doubled quotes, minimal quoting, line terminator CR LF,
    [restval] empty, [extrasaction] raise. *)

Definition delimiter : ascii := ","%char.
Definition quotechar : ascii := "034"%char.
Definition CR : ascii := "013"%char.
Definition LF : ascii := "010"%char.
Definition lineterminator : string := String CR (String LF EmptyString).

Fixpoint string_exists (p : ascii -> bool) (s : string) : bool :=
  match s with
  | EmptyString => false
  | String c s' => p c || string_exists p s'
  end.

(** A character that forces the field to be quoted. *)
Definition csv_special (c : ascii) : bool :=
  Ascii.eqb c delimiter || Ascii.eqb c quotechar
  || string_exists (Ascii.eqb c) lineterminator.

(** Every quote character of the field is written twice. *)
Fixpoint csv_double_quotes (s : string) : string :=
  match s with
  | EmptyString => EmptyString
  | String c s' =>
      if Ascii.eqb c quotechar
      then String quotechar (String quotechar (csv_double_quotes s'))
      else String c (csv_double_quotes s')
  end.

Definition csv_field (s : string) : string :=
  if string_exists csv_special s
  then String quotechar (csv_double_quotes s +:+ String quotechar EmptyString)
  else s.

(** [writer.writerow]: the fields joined by the delimiter and terminated;
    a record made of one empty field is written as two quote characters. *)
Definition csv_writerow (fields : list string) : string :=
  let rec := String.concat (String delimiter EmptyString) (csv_field <$> fields) in
  let rec' :=
    match fields, rec with
    | _ :: _, EmptyString => String quotechar (String quotechar EmptyString)
    | _, _ => rec
    end in
  rec' +:+ lineterminator.

(** [DictWriter._dict_to_list] followed by [writer.writerow]: a key outside
    [fieldnames] raises [ValueError], a missing one is written as [restval]. *)
Definition DictWriter_writerow (fieldnames : list string) (rowdict : gmap string string)
  : option string :=
  if decide (dom rowdict ⊆ list_to_set (C := gset string) fieldnames)
  then Some (csv_writerow ((fun key => default "" (rowdict !! key)) <$> fieldnames))
  else None.

(** [DictWriter.writeheader]: the row that maps each field name to itself. *)
Definition DictWriter_writeheader (fieldnames : list string) : option string :=
  DictWriter_writerow fieldnames (list_to_map ((fun key => (key, key)) <$> fieldnames)).

(** [DictWriter.writerows] onto the text [f] written so far.  The boolean
    tells whether every row was written; rows before a failing one stay
    in the file. *)
Fixpoint DictWriter_writerows (fieldnames : list string) (rows : list (gmap string string))
    (f : string) : string * bool :=
  match rows with
  | [] => (f, true)
  | row :: rows' =>
      match DictWriter_writerow fieldnames row with
      | Some line => DictWriter_writerows fieldnames rows' (f +:+ line)
      | None => (f, false)
      end
  end.

(** ** write_data *)

(** The file system (path to content) and the lines printed so far. *)
Record Sys := {
  files : gmap string string;
  stdout : list string
}.

Inductive written : Type :=
| Saved (sys : Sys)
| Failed (sys : Sys).

Definition fieldnames : list string := ["title"; "video_url"; "views"].

(** [{key: video[key] for key in ['title', 'video_url', 'views']}]. *)
Definition clean_video (video : gmap string string) : option (gmap string string) :=
  kvs ← mapM (fun key => (fun v => (key, v)) <$> video !! key) fieldnames;
  Some (list_to_map kvs).

(** The effect of an [open(name, 'w')] and the writes that succeed: the
    file holds the text written, whatever it held before. *)
Definition set_file (name content : string) (sys : Sys) : Sys :=
  {| files := <[name := content]> (files sys); stdout := stdout sys |}.

(** The effect of a [print] that succeeds. *)
Definition print (line : string) (sys : Sys) : Sys :=
  {| files := files sys; stdout := stdout sys ++ [line] |}.

(** [write_data] where the operating system refuses nothing: [open], the
    writes and [print] succeed, and only the three-column projection or the
    writer can raise.  [write_data_in] below adds the refusals. *)
Definition write_data (data : list (gmap string string)) (channel_name : string) (sys : Sys)
  : written :=
  match mapM clean_video data with
  | None => Failed sys
  | Some clean_data =>
      let name := channel_name +:+ ".csv" in
      match DictWriter_writeheader fieldnames with
      | None => Failed (set_file name "" sys)
      | Some header =>
          match DictWriter_writerows fieldnames clean_data header with
          | (f, true) => Saved (print ("✅ CSV file saved as " +:+ name) (set_file name f sys))
          | (f, false) => Failed (set_file name f sys)
          end
      end
  end.

(** ** write_data under an operating system that can refuse

    What the operating system allows during a run: whether a path can be
    opened for writing (the directory exists, the permissions allow it,
    the name is not too long); whether writing a text to a path breaks
    off (disk full, input/output error), and then what the file is left
    with; whether standard output takes a line (it is open and its
    encoding has every character of the line). *)
Record Env := {
  may_open : string -> bool;
  write_fault : string -> string -> option string;
  may_print : string -> bool
}.

(** [open] raises [ValueError] on a name with an embedded null byte,
    before the operating system is asked. *)
Definition has_nul (name : string) : bool :=
  string_exists (Ascii.eqb "000"%char) name.

(** [write_data] with every exception it can raise: [KeyError] in the
    projection, before the file is opened; the errors of [open], which
    leave the file system as it was; the errors of the writes, which leave
    the file with what got through; the error of [print], after the file
    is complete. *)
Definition write_data_in (env : Env) (data : list (gmap string string))
    (channel_name : string) (sys : Sys) : written :=
  match mapM clean_video data with
  | None => Failed sys
  | Some clean_data =>
      let name := channel_name +:+ ".csv" in
      if has_nul name || negb (may_open env name) then Failed sys
      else
        match DictWriter_writeheader fieldnames with
        | None => Failed (set_file name "" sys)
        | Some header =>
            match DictWriter_writerows fieldnames clean_data header with
            | (f, true) =>
                match write_fault env name f with
                | Some partial => Failed (set_file name partial sys)
                | None =>
                    let line := "✅ CSV file saved as " +:+ name in
                    if may_print env line
                    then Saved (print line (set_file name f sys))
                    else Failed (set_file name f sys)
                end
            | (f, false) => Failed (set_file name f sys)
            end
        end
  end.

(** ** What the merge writes into one record *)

(** The record with its [views] entry set from a statistics mapping. *)
Definition with_views (view_counts video : gmap string string) : gmap string string :=
  <["views" := default "0" (vid ← video !! "video_id"; view_counts !! vid)]> video.

(** The parameters [get_view_counts] sends for a list of identifiers. *)
Definition stats_params (w : World) (video_ids : list string) : VideosParams :=
  {| vp_part := "statistics"; vp_id := String.concat "," video_ids; vp_key := API_KEY w |}.

(** ** Reading the results *)

(** Whether a computation returned. *)
Definition returned {A} (o : outcome A) : bool :=
  match o with
  | Returns _ _ => true
  | _ => false
  end.


(** Number of occurrences of a character. *)
Fixpoint count_char (c : ascii) (s : string) : nat :=
  match s with
  | EmptyString => 0
  | String d s' => (if Ascii.eqb d c then 1 else 0) + count_char c s'
  end.

(** Text lines of a file: one per line feed. *)
Definition line_count (s : string) : nat := count_char LF s.

(** Records of a CSV file as a reader sees them: one per line feed that is
    not inside a quoted field. *)
Fixpoint csv_record_count (in_quotes : bool) (s : string) : nat :=
  match s with
  | EmptyString => 0
  | String c s' =>
      if Ascii.eqb c quotechar then csv_record_count (negb in_quotes) s'
      else if Ascii.eqb c LF && negb in_quotes then S (csv_record_count in_quotes s')
      else csv_record_count in_quotes s'
  end.

(** A view count that resolves to a non-negative integer: a non-empty
    string of decimal digits. *)
Definition digit_of (c : ascii) : option N :=
  let n := N_of_ascii c in
  if (48 <=? n)%N && (n <=? 57)%N then Some (n - 48)%N else None.

Fixpoint parse_digits (acc : N) (s : string) : option N :=
  match s with
  | EmptyString => Some acc
  | String c s' =>
      match digit_of c with
      | Some d => parse_digits (10 * acc + d)%N s'
      | None => None
      end
  end.

Definition parse_count (s : string) : option N :=
  match s with
  | EmptyString => None
  | _ => parse_digits 0 s
  end.

(** Whether [write_data] completed. *)
Definition saved (r : written) : bool :=
  match r with
  | Saved _ => true
  | Failed _ => false
  end.

(** ** What write_data writes *)

Definition header_line : string := "title,video_url,views" +:+ lineterminator.

(** The line written for one record. *)
Definition csv_row (video : gmap string string) : string :=
  csv_writerow ((fun key => default "" (video !! key)) <$> fieldnames).

Definition join_lines (lines : list string) : string :=
  foldr String.append EmptyString lines.

Definition csv_text (data : list (gmap string string)) : string :=
  header_line +:+ join_lines (csv_row <$> data).

Definition saved_message (channel_name : string) : string :=
  "✅ CSV file saved as " +:+ channel_name +:+ ".csv".

(** A record that has the three columns. *)
Definition has_columns (video : gmap string string) : Prop :=
  Forall (fun key => is_Some (video !! key)) fieldnames.

(** Line feeds inside the written values of the records. *)
Definition embedded_line_feeds (data : list (gmap string string)) : nat :=
  sum_list ((fun video : gmap string string =>
               sum_list ((fun key => count_char LF (default "" (video !! key)))
                           <$> fieldnames)) <$> data).

(** ** Model endpoints *)

(** A listing endpoint that answers its n-th request with the n-th page of
    a fixed sequence, whatever the request says. *)
Definition scripted (pages : nat -> PlaylistPage)
  : list PlaylistParams -> PlaylistParams -> option PlaylistPage :=
  fun history _ => Some (pages (length history)).

(** The requests the pagination loop sends while it follows the pages
    [j], ..., [j + m], and the items it collects from the pages [j], ...,
    [j + m - 1]. *)
Definition followed_requests (params : PlaylistParams) (pages : nat -> PlaylistPage)
    (j m : nat) : list PlaylistParams :=
  params :: ((fun i => set_pageToken params (nextPageToken (pages i))) <$> seq j m).

Definition collected_items (pages : nat -> PlaylistPage) (j m : nat) : list PlaylistItem :=
  concat ((fun i => items (pages i)) <$> seq j m).

(** The platform's page size. *)
Definition page_size : nat := 50.

(** A playlist of items served in pages of fifty: page [j] holds the items
    from [page_size * j] on and carries the cursor [cursor j] exactly when
    items remain after it. *)
Definition page_at (cursor : nat -> string) (its : list PlaylistItem) (j : nat)
  : PlaylistPage :=
  {| items := take page_size (drop (page_size * j) its);
     nextPageToken :=
       if decide (page_size * (j + 1) < length its) then Some (cursor j) else None |}.

(** The number of pages needed for [k] items. *)
Definition pages_needed (k : nat) : nat := (k + page_size - 1) / page_size.

(** The response a statistics call of the log received. *)
Definition stats_response (w : World) (log : Log) (k : nat) : option VideosPage :=
  q ← stats_log log !! k;
  videos_api w (take k (stats_log log)) q.

(** ** Sample data *)

(** A playlist of [k] videos whose identifiers are distinct. *)
Definition sample_items (k : nat) : list PlaylistItem :=
  (fun i => {| snippet_title := "title " +:+ pretty i; snippet_videoId := "id" +:+ pretty i |})
    <$> seq 0 k.

(** A statistics endpoint that answers its n-th call with the counts of
    the videos numbered [50 * n] to [50 * n + 49], except those numbered 7
    and 99, which it does not know. *)
Definition sample_stats (history : list VideosParams) (q : VideosParams)
  : option VideosPage :=
  let known := filter (fun i => i <> 7 /\ i <> 99)
                      (seq (50 * length history) 50) in
  Some {| stat_items :=
            (fun i => {| item_id := "id" +:+ pretty i; viewCount := "1000" |})
              <$> known |}.

Definition sample_world (k : nat) : World :=
  {| API_KEY := Some "key";
     playlistItems_api := scripted (page_at (fun j => "cursor" +:+ pretty j) (sample_items k));
     videos_api := sample_stats |}.

(** A platform with one video whose view count is not a number. *)
Definition sample_world_no_count : World :=
  {| API_KEY := Some "key";
     playlistItems_api :=
       scripted (fun _ => {| items := [ {| snippet_title := "t"; snippet_videoId := "a" |} ];
                             nextPageToken := None |});
     videos_api := fun _ _ =>
       Some {| stat_items := [ {| item_id := "a"; viewCount := "n/a" |} ] |} |}.

(** Two merged records; the first title holds a comma and a quote. *)
Definition sample_records : list (gmap string string) :=
  [ <["views" := "1000"]>
      (video_of_item {| snippet_title := "Ads, " +:+ String quotechar "scaled";
                        snippet_videoId := "id0" |});
    <["views" := "0"]>
      (video_of_item {| snippet_title := "Creative testing"; snippet_videoId := "id1" |}) ].

(** One merged record whose title runs over two lines. *)
Definition sample_record_two_lines : list (gmap string string) :=
  [ <["views" := "0"]>
      (video_of_item {| snippet_title := "part one" +:+ String LF "part two";
                        snippet_videoId := "id0" |}) ].

Definition empty_sys : Sys := {| files := ∅; stdout := [] |}.

(** ** The script's entry point *)

(** Each pair: uploads playlist id, channel name. *)
Definition channels : list (string * string) :=
  [ ("UUbQUXtMwQM9QWQ15yDDN1BA", "Ben Heath");
    ("UUFF55suuW0LjzXEnzDTNCnA", "Dara Denney");
    ("UU3kl2OhNRZ1rH_4bnd0Ap7g", "Professor Charley T") ].

(** How a run of the script ends: normally, by an uncaught exception, or
    with the fuel of a pagination loop used up. *)
Inductive run : Type :=
| Finished (log : Log) (sys : Sys)
| Aborted (log : Log) (sys : Sys)
| Unfinished.

(** The [for playlist, channel_name in channels] loop.  Nothing catches an
    exception of [get_video_data] or [write_data]. *)
Fixpoint process_channels (fuel : nat) (w : World) (chans : list (string * string))
    (log : Log) (sys : Sys) : run :=
  match chans with
  | [] => Finished log sys
  | (playlist, channel_name) :: chans' =>
      match get_video_data fuel w playlist log with
      | Returns video_data log' =>
          match write_data video_data channel_name sys with
          | Saved sys' => process_channels fuel w chans' log' sys'
          | Failed sys' => Aborted log' sys'
          end
      | Raises log' => Aborted log' sys
      | OutOfFuel => Unfinished
      end
  end.

Definition main (fuel : nat) (w : World) (sys : Sys) : run :=
  process_channels fuel w channels empty_log sys.

(** The same loop under an operating system that can refuse. *)
Fixpoint process_channels_in (env : Env) (fuel : nat) (w : World)
    (chans : list (string * string)) (log : Log) (sys : Sys) : run :=
  match chans with
  | [] => Finished log sys
  | (playlist, channel_name) :: chans' =>
      match get_video_data fuel w playlist log with
      | Returns video_data log' =>
          match write_data_in env video_data channel_name sys with
          | Saved sys' => process_channels_in env fuel w chans' log' sys'
          | Failed sys' => Aborted log' sys'
          end
      | Raises log' => Aborted log' sys
      | OutOfFuel => Unfinished
      end
  end.

Definition main_in (env : Env) (fuel : nat) (w : World) (sys : Sys) : run :=
  process_channels_in env fuel w channels empty_log sys.

(** The ways the operating system can stop [write_data_in] on a file
    name, a text and a confirmation line. *)
Definition refused (env : Env) (name content line : string) : Prop :=
  has_nul name = true \/ may_open env name = false \/
  write_fault env name content <> None \/ may_print env line = false.

(** ** More ways to read a run *)

(** The log an outcome carries. *)
Definition log_of {A} (o : outcome A) : option Log :=
  match o with
  | Returns _ log => Some log
  | Raises log => Some log
  | OutOfFuel => None
  end.

(** The response a listing request of the log received. *)
Definition listing_response (w : World) (log : Log) (k : nat) : option PlaylistPage :=
  q ← listing_log log !! k;
  playlistItems_api w (take k (listing_log log)) q.

(** The identifiers of a batch, in order. *)
Definition video_ids_of (batch : list (gmap string string)) : list string :=
  omap (fun video : gmap string string => video !! "video_id") batch.

(** The values of the three columns of a record. *)
Definition columns (video : gmap string string) : list (option string) :=
  (fun key => video !! key) <$> fieldnames.

(** Delimiters of a CSV text that separate fields: those outside quotes. *)
Fixpoint csv_delimiter_count (in_quotes : bool) (s : string) : nat :=
  match s with
  | EmptyString => 0
  | String c s' =>
      if Ascii.eqb c quotechar then csv_delimiter_count (negb in_quotes) s'
      else if Ascii.eqb c delimiter && negb in_quotes
           then S (csv_delimiter_count in_quotes s')
           else csv_delimiter_count in_quotes s'
  end.

(** The confirmation lines of the channels, in order. *)
Definition saved_messages (chans : list (string * string)) : list string :=
  (fun chan => saved_message chan.2) <$> chans.

(** A record none of whose three values needs quoting, and the row made
    of its bare values. *)
Definition plain_values (video : gmap string string) : Prop :=
  Forall (fun key => string_exists csv_special (default "" (video !! key)) = false)
         fieldnames.

Definition plain_row (video : gmap string string) : string :=
  default "" (video !! "title") +:+ "," +:+ default "" (video !! "video_url") +:+ ","
    +:+ default "" (video !! "views") +:+ lineterminator.

(** ** More sample data *)

(** A listing endpoint that never runs out of cursors. *)
Definition endless_world : World :=
  {| API_KEY := Some "key";
     playlistItems_api :=
       scripted (fun _ => {| items := [ {| snippet_title := "t"; snippet_videoId := "a" |} ];
                             nextPageToken := Some "more" |});
     videos_api := sample_stats |}.

(** A listing endpoint that fails on its second request. *)
Definition listing_down_world : World :=
  {| API_KEY := Some "key";
     playlistItems_api := fun history q =>
       match history with
       | [] => Some {| items := [ {| snippet_title := "t"; snippet_videoId := "a" |} ];
                       nextPageToken := Some "more" |}
       | _ => None
       end;
     videos_api := sample_stats |}.

(** A statistics endpoint that is down, behind a working listing. *)
Definition stats_down_world : World :=
  {| API_KEY := Some "key";
     playlistItems_api := scripted (page_at (fun j => "cursor" +:+ pretty j) (sample_items 3));
     videos_api := fun _ _ => None |}.

(** A statistics endpoint that reports one video twice. *)
Definition twice_world : World :=
  {| API_KEY := Some "key";
     playlistItems_api := scripted (page_at (fun j => "cursor" +:+ pretty j) (sample_items 3));
     videos_api := fun _ _ =>
       Some {| stat_items := [ {| item_id := "id0"; viewCount := "1" |};
                               {| item_id := "id1"; viewCount := "5" |};
                               {| item_id := "id0"; viewCount := "2" |} ] |} |}.

(** The playlist of each channel has three videos: every listing request
    is answered with one final page. *)
Definition three_channels_world : World :=
  {| API_KEY := Some "key";
     playlistItems_api := fun _ _ =>
       Some {| items := sample_items 3; nextPageToken := None |};
     videos_api := sample_stats |}.

(** The same, with the listing of the second channel failing. *)
Definition second_channel_down_world : World :=
  {| API_KEY := Some "key";
     playlistItems_api := fun history _ =>
       match history with
       | [] => Some {| items := sample_items 3; nextPageToken := None |}
       | _ => None
       end;
     videos_api := sample_stats |}.

(** A record without views. *)
Definition sample_records_unmerged : list (gmap string string) :=
  [ video_of_item {| snippet_title := "Creative testing"; snippet_videoId := "id1" |} ].

(** ** Sample operating systems *)

(** One that refuses nothing. *)
Definition permissive_env : Env :=
  {| may_open := fun _ => true;
     write_fault := fun _ _ => None;
     may_print := fun _ => true |}.


(** A standard output that takes ASCII only. *)
Definition ascii_stdout_env : Env :=
  {| may_open := fun _ => true;
     write_fault := fun _ _ => None;
     may_print := fun line =>
       negb (string_exists (fun c => (127 <? N_of_ascii c)%N) line) |}.

(** A listing whose first response carries an empty cursor. *)
Definition empty_cursor_world : World :=
  {| API_KEY := Some "key";
     playlistItems_api :=
       scripted (fun j =>
         {| items := [ {| snippet_title := "t"; snippet_videoId := "a" |} ];
            nextPageToken := match j with 0 => Some "" | _ => None end |});
     videos_api := sample_stats |}.

(** * Properties *)

(** ** The pagination loop *)

Lemma extend_videos_app videos its :
  extend_videos videos its = videos ++ (video_of_item <$> its).
Proof.
  revert videos. induction its as [|item its IH]; intros videos; simpl.
  - by rewrite app_nil_r.
  - unfold extend_videos in *. simpl. rewrite IH. by rewrite <- app_assoc.
Qed.

Lemma collected_items_0 pages j : collected_items pages j 0 = [].
Proof. reflexivity. Qed.

Lemma collected_items_S pages j m :
  collected_items pages j (S m) = items (pages j) ++ collected_items pages (S j) m.
Proof. reflexivity. Qed.

(** Against a scripted endpoint the loop walks the pages in order, until
    the first page whose token is not truthy. *)
Lemma get_videos_loop_follows pages w :
  playlistItems_api w = scripted pages ->
  forall m fuel params videos log,
    (forall i, length (listing_log log) <= i < length (listing_log log) + m ->
               truthy (nextPageToken (pages i)) = true) ->
    truthy (nextPageToken (pages (length (listing_log log) + m))) = false ->
    m < fuel ->
    get_videos_loop fuel w params videos log =
    Returns (videos ++ (video_of_item <$> collected_items pages (length (listing_log log)) (S m)))
            {| listing_log :=
                 listing_log log ++ followed_requests params pages (length (listing_log log)) m;
               stats_log := stats_log log |}.
Proof.
  intros Hw m. induction m as [|m IH]; intros fuel params videos log Hbefore Hstop Hfuel;
    (destruct fuel as [|fuel]; [lia|]);
    simpl get_videos_loop; unfold bind, requests_get_playlistItems;
    rewrite Hw; unfold scripted.
  - rewrite Nat.add_0_r in Hstop. rewrite Hstop. unfold ret.
    rewrite extend_videos_app, collected_items_S, collected_items_0.
    by rewrite app_nil_r.
  - rewrite (Hbefore (length (listing_log log))) by lia.
    rewrite IH; simpl listing_log; simpl stats_log.
    + rewrite length_app. simpl length. rewrite Nat.add_1_r.
      rewrite extend_videos_app, (collected_items_S pages (length (listing_log log)) (S m)).
      rewrite fmap_app, <- !app_assoc. reflexivity.
    + intros i Hi. rewrite length_app in Hi. simpl in Hi. apply Hbefore. lia.
    + rewrite length_app. simpl length.
      replace (length (listing_log log) + 1 + m) with (length (listing_log log) + S m) by lia.
      done.
    + lia.
Qed.

(** While the pages ahead carry truthy tokens the loop uses up its fuel. *)
Lemma get_videos_loop_short pages w :
  playlistItems_api w = scripted pages ->
  forall fuel params videos log,
    (forall i, length (listing_log log) <= i < length (listing_log log) + fuel ->
               truthy (nextPageToken (pages i)) = true) ->
    get_videos_loop fuel w params videos log = OutOfFuel.
Proof.
  intros Hw fuel. induction fuel as [|fuel IH]; intros params videos log Hbefore; [done|].
  simpl get_videos_loop. unfold bind, requests_get_playlistItems.
  rewrite Hw. unfold scripted.
  rewrite (Hbefore (length (listing_log log))) by lia.
  apply IH. simpl listing_log. intros i Hi. rewrite length_app in Hi. simpl in Hi.
  apply Hbefore. lia.
Qed.

Lemma get_videos_scripted pages w playlist_id m fuel :
  playlistItems_api w = scripted pages ->
  (forall i, i < m -> truthy (nextPageToken (pages i)) = true) ->
  truthy (nextPageToken (pages m)) = false ->
  m < fuel ->
  get_videos fuel w playlist_id empty_log =
  Returns (video_of_item <$> collected_items pages 0 (S m))
          {| listing_log := followed_requests (initial_params w playlist_id) pages 0 m;
             stats_log := [] |}.
Proof.
  intros Hw Hbefore Hstop Hfuel. unfold get_videos.
  rewrite (get_videos_loop_follows pages w Hw m); simpl listing_log; simpl length; try done.
  intros i Hi. apply Hbefore. lia.
Qed.

(** The first page that carries no truthy token. *)
Lemma first_not_truthy (pages : nat -> PlaylistPage) n :
  (forall i, i < n -> truthy (nextPageToken (pages i)) = true) \/
  (exists m, m < n /\ truthy (nextPageToken (pages m)) = false /\
             forall i, i < m -> truthy (nextPageToken (pages i)) = true).
Proof.
  induction n as [|n [IH|IH]].
  - left. intros i Hi. lia.
  - destruct (truthy (nextPageToken (pages n))) eqn:Hn.
    + left. intros i Hi. destruct (decide (i = n)) as [->|]; [done|]. apply IH. lia.
    + right. exists n. split; [lia|]. split; done.
  - right. destruct IH as (m & Hm & Hstop & Hbefore). exists m. split; [lia|]. split; done.
Qed.

Lemma truthy_true tok :
  truthy tok = true <-> exists c, tok = Some c /\ c <> "".
Proof.
  split.
  - destruct tok as [[|a c]|]; simpl; try done. intros _. by exists (String a c).
  - intros (c & -> & Hc). by destruct c.
Qed.

Lemma truthy_false tok :
  truthy tok = false <-> tok = None \/ tok = Some "".
Proof.
  split.
  - destruct tok as [[|a c]|]; simpl; try done; auto.
  - by intros [-> | ->].
Qed.

(** ** Pages of fifty *)

Lemma collected_items_page_at cursor its m j :
  collected_items (page_at cursor its) j m =
  take (page_size * m) (drop (page_size * j) its).
Proof.
  revert j. induction m as [|m IH]; intros j.
  - rewrite collected_items_0, Nat.mul_0_r. done.
  - rewrite collected_items_S, IH.
    change (items (page_at cursor its j)) with (take page_size (drop (page_size * j) its)).
    replace (page_size * S j) with (page_size * j + page_size) by lia.
    rewrite <- (drop_drop its page_size (page_size * j)).
    rewrite (take_take_drop (drop (page_size * j) its) page_size (page_size * m)).
    f_equal. lia.
Qed.

Lemma followed_tokens params pages m :
  pl_pageToken <$> followed_requests params pages 0 m =
  pl_pageToken params :: ((fun i => nextPageToken (pages i)) <$> seq 0 m).
Proof.
  unfold followed_requests. rewrite fmap_cons. f_equal.
  rewrite <- list_fmap_compose. done.
Qed.

Lemma page_at_token_before cursor its j :
  S j < Nat.max 1 (pages_needed (length its)) ->
  nextPageToken (page_at cursor its j) = Some (cursor j).
Proof.
  intros Hj. unfold page_at. simpl nextPageToken.
  case_decide as Hlt; [done|]. exfalso. apply Hlt.
  unfold pages_needed, page_size in *. lia.
Qed.

Lemma page_at_token_last cursor its j :
  S j = Nat.max 1 (pages_needed (length its)) ->
  nextPageToken (page_at cursor its j) = None.
Proof.
  intros Hj. unfold page_at. simpl nextPageToken.
  case_decide as Hlt; [|done]. exfalso.
  unfold pages_needed, page_size in *. lia.
Qed.

(** A world whose listing endpoint serves the empty playlist and whose
    statistics endpoint is down. *)
Lemma empty_playlist_run fuel :
  get_videos (S fuel)
    {| API_KEY := None;
       playlistItems_api := scripted (page_at (fun _ => "c") []);
       videos_api := fun _ _ => None |} "PL" empty_log =
  Returns []
    {| listing_log := [ {| pl_part := "snippet"; pl_playlistId := "PL"; pl_maxResults := 50;
                           pl_key := None; pl_pageToken := None |} ];
       stats_log := [] |}.
Proof. reflexivity. Qed.

(** C1, as stated, fails for the empty playlist: the listing of zero videos
    costs one page request, not [ceil(0/50) = 0]. *)
Lemma get_videos_empty_playlist_needs_a_request :
  ~ (forall (w : World) (cursor : nat -> string) (its : list PlaylistItem)
            (playlist_id : string),
        playlistItems_api w = scripted (page_at cursor its) ->
        (forall j, cursor j <> "") ->
        exists fuel videos log,
          get_videos fuel w playlist_id empty_log = Returns videos log /\
          length videos = length its /\
          length (listing_log log) = pages_needed (length its)).
Proof.
  intros Hclaim.
  destruct (Hclaim
    {| API_KEY := None;
       playlistItems_api := scripted (page_at (fun _ => "c") []);
       videos_api := fun _ _ => None |} (fun _ => "c") [] "PL" eq_refl)
    as (fuel & videos & log & Hrun & _ & Hlen); [done|].
  destruct fuel as [|fuel]; [done|].
  rewrite empty_playlist_run in Hrun. injection Hrun as _ <-. done.
Qed.

(** C1, amended: for a playlist of K videos served in pages of fifty,
    [get_videos] returns the K records in listing order and issues
    [max 1 (ceil (K / 50))] page requests, the first without a cursor and
    each later one with the cursor the previous response supplied. *)
Theorem get_videos_paged (w : World) (cursor : nat -> string) (its : list PlaylistItem)
    (playlist_id : string) :
  playlistItems_api w = scripted (page_at cursor its) ->
  (forall j, cursor j <> "") ->
  exists videos log,
    (forall fuel, Nat.max 1 (pages_needed (length its)) <= fuel ->
                  get_videos fuel w playlist_id empty_log = Returns videos log) /\
    videos = video_of_item <$> its /\
    length videos = length its /\
    length (listing_log log) = Nat.max 1 (pages_needed (length its)) /\
    pl_pageToken <$> listing_log log =
      None :: ((fun j => nextPageToken (page_at cursor its j)) <$>
               seq 0 (Nat.max 1 (pages_needed (length its)) - 1)) /\
    (forall j, S j < Nat.max 1 (pages_needed (length its)) ->
               nextPageToken (page_at cursor its j) = Some (cursor j)).
Proof.
  intros Hw Hcursor.
  set (n := Nat.max 1 (pages_needed (length its))).
  assert (Hn : n = S (n - 1)) by (unfold n; lia).
  assert (Hbefore : forall i, i < n - 1 ->
            truthy (nextPageToken (page_at cursor its i)) = true).
  { intros i Hi. rewrite page_at_token_before by (fold n; lia).
    apply truthy_true. eauto. }
  assert (Hstop : truthy (nextPageToken (page_at cursor its (n - 1))) = false).
  { rewrite page_at_token_last by (fold n; lia). done. }
  assert (Hall : collected_items (page_at cursor its) 0 (S (n - 1)) = its).
  { rewrite collected_items_page_at, Nat.mul_0_r. simpl drop.
    apply take_ge. unfold n, pages_needed, page_size. lia. }
  eexists _, _. split; [|split; [|split; [|split; [|split]]]].
  - intros fuel Hfuel.
    rewrite (get_videos_scripted _ w playlist_id (n - 1) fuel Hw Hbefore Hstop) by lia.
    rewrite Hall. reflexivity.
  - done.
  - by rewrite length_fmap.
  - simpl listing_log. unfold followed_requests. simpl length.
    rewrite length_fmap, length_seq. lia.
  - simpl listing_log. rewrite followed_tokens. done.
  - intros j Hj. by apply page_at_token_before.
Qed.

(** C1, on the playlist of 120 videos: three requests. *)
Lemma get_videos_paged_witness :
  exists videos log,
    (forall fuel, Nat.max 1 (pages_needed (length (sample_items 120))) <= fuel ->
                  get_videos fuel (sample_world 120) "PL" empty_log = Returns videos log) /\
    videos = video_of_item <$> sample_items 120 /\
    length videos = length (sample_items 120) /\
    length (listing_log log) = Nat.max 1 (pages_needed (length (sample_items 120))) /\
    pl_pageToken <$> listing_log log =
      None :: ((fun j => nextPageToken
                           (page_at (fun j => "cursor" +:+ pretty j) (sample_items 120) j)) <$>
               seq 0 (Nat.max 1 (pages_needed (length (sample_items 120))) - 1)) /\
    (forall j, S j < Nat.max 1 (pages_needed (length (sample_items 120))) ->
               nextPageToken (page_at (fun j => "cursor" +:+ pretty j) (sample_items 120) j)
               = Some ("cursor" +:+ pretty j)).
Proof.
  apply (get_videos_paged (sample_world 120) (fun j => "cursor" +:+ pretty j)
           (sample_items 120) "PL").
  - reflexivity.
  - intros j. discriminate.
Defined.

(** C9, as stated, fails: a response whose cursor is the empty string
    does contain a cursor, yet the loop stops at it, since the test is
    Python's truth value.  Here the first response has the empty cursor and
    the later ones have none; the loop stops after the first. *)
Lemma get_videos_stops_at_empty_cursor :
  ~ (forall (w : World) (pages : nat -> PlaylistPage) (playlist_id : string),
        playlistItems_api w = scripted pages ->
        (exists n, nextPageToken (pages n) = None) ->
        exists m videos log,
          (forall fuel, m < fuel ->
                        get_videos fuel w playlist_id empty_log = Returns videos log) /\
          length (listing_log log) = S m /\
          nextPageToken (pages m) = None /\
          (forall i, i < m -> nextPageToken (pages i) <> None)).
Proof.
  intros Hclaim.
  destruct (Hclaim empty_cursor_world _ "PL" eq_refl) as (m & videos & log & Hrun & Hlen & Hstop & _).
  { by exists 1. }
  specialize (Hrun (S m) (Nat.lt_succ_diag_r m)).
  injection Hrun as _ <-. simpl in Hlen. injection Hlen as <-. done.
Qed.

(** C9, amended: if some response of the scripted endpoint carries no
    usable cursor, that is none or the empty one, which Python's truth
    test treats alike, then with enough fuel [get_videos] returns, after
    exactly [m + 1] requests, where [m] is the first such response; every
    response before it carried a non-empty cursor, which the next request
    sent. *)
Theorem get_videos_terminates (w : World) (pages : nat -> PlaylistPage)
    (playlist_id : string) :
  playlistItems_api w = scripted pages ->
  (exists n, nextPageToken (pages n) = None \/ nextPageToken (pages n) = Some "") ->
  exists m videos log,
    (forall fuel, m < fuel ->
                  get_videos fuel w playlist_id empty_log = Returns videos log) /\
    (forall fuel, fuel <= m -> get_videos fuel w playlist_id empty_log = OutOfFuel) /\
    length (listing_log log) = S m /\
    (nextPageToken (pages m) = None \/ nextPageToken (pages m) = Some "") /\
    (forall i, i < m ->
       exists c, nextPageToken (pages i) = Some c /\ c <> "" /\
                 pl_pageToken <$> listing_log log !! S i = Some (Some c)).
Proof.
  intros Hw [n Hn]. apply truthy_false in Hn.
  destruct (first_not_truthy pages (S n)) as [Hall | (m & Hm & Hstop & Hbefore)].
  { specialize (Hall n (Nat.lt_succ_diag_r n)). rewrite Hn in Hall. done. }
  exists m. eexists _, _. split; [|split; [|split; [|split]]].
  - intros fuel Hfuel. by apply get_videos_scripted.
  - intros fuel Hfuel. unfold get_videos. apply (get_videos_loop_short pages w Hw).
    simpl. intros i Hi. apply Hbefore. lia.
  - simpl listing_log. unfold followed_requests. simpl length.
    by rewrite length_fmap, length_seq.
  - by apply truthy_false.
  - intros i Hi. destruct (proj1 (truthy_true _) (Hbefore i Hi)) as (c & Hc & Hne).
    exists c. split; [done|]. split; [done|].
    simpl listing_log. unfold followed_requests.
    rewrite lookup_cons. rewrite list_lookup_fmap, lookup_seq_lt by done.
    simpl. by rewrite Hc.
Qed.

(** C9, on the playlist of 120 videos. *)
Lemma get_videos_terminates_witness :
  exists m videos log,
    (forall fuel, m < fuel ->
                  get_videos fuel (sample_world 120) "PL" empty_log = Returns videos log) /\
    (forall fuel, fuel <= m ->
                  get_videos fuel (sample_world 120) "PL" empty_log = OutOfFuel) /\
    length (listing_log log) = S m /\
    (nextPageToken (page_at (fun j => "cursor" +:+ pretty j) (sample_items 120) m) = None \/
     nextPageToken (page_at (fun j => "cursor" +:+ pretty j) (sample_items 120) m) = Some "") /\
    (forall i, i < m ->
       exists c, nextPageToken (page_at (fun j => "cursor" +:+ pretty j) (sample_items 120) i)
                 = Some c /\ c <> "" /\
                 pl_pageToken <$> listing_log log !! S i = Some (Some c)).
Proof.
  apply (get_videos_terminates (sample_world 120)
           (page_at (fun j => "cursor" +:+ pretty j) (sample_items 120)) "PL").
  - reflexivity.
  - exists 2. left. vm_compute. reflexivity.
Defined.

(** ** The statistics call *)

Lemma get_view_counts_returns w video_ids log :
  get_view_counts w video_ids log =
  match videos_api w (stats_log log) (stats_params w video_ids) with
  | Some data =>
      Returns (collect_stats ∅ (stat_items data))
              {| listing_log := listing_log log;
                 stats_log := stats_log log ++ [stats_params w video_ids] |}
  | None =>
      Raises {| listing_log := listing_log log;
                stats_log := stats_log log ++ [stats_params w video_ids] |}
  end.
Proof.
  unfold get_view_counts, bind, requests_get_videos. fold (stats_params w video_ids).
  by destruct (videos_api w (stats_log log) (stats_params w video_ids)).
Qed.

Lemma dom_collect_stats stats its :
  dom (collect_stats stats its) = dom stats ∪ list_to_set (item_id <$> its).
Proof.
  revert stats. induction its as [|item its IH]; intros stats.
  - simpl. by rewrite union_empty_r_L.
  - unfold collect_stats in *. simpl. rewrite IH, dom_insert_L.
    rewrite (comm_L (∪) {[item_id item]} (dom stats)). by rewrite (assoc_L (∪)).
Qed.

(** ** The merge *)

Lemma merge_batch_spec view_counts batch final_data out :
  merge_batch view_counts batch final_data = Some out ->
  out = final_data ++ (with_views view_counts <$> batch).
Proof.
  revert final_data. induction batch as [|video batch IH]; intros final_data; simpl.
  - intros [= <-]. by rewrite app_nil_r.
  - destruct (video !! "video_id") as [vid|] eqn:Hvid; [|done].
    intros Hrest. rewrite (IH _ Hrest), <- app_assoc. simpl.
    unfold with_views at 2. rewrite Hvid. done.
Qed.

Lemma merge_batch_total view_counts batch final_data :
  Forall (fun video : gmap string string => is_Some (video !! "video_id")) batch ->
  is_Some (merge_batch view_counts batch final_data).
Proof.
  intros Hids. revert final_data.
  induction Hids as [|video batch [vid Hvid] _ IH]; intros final_data; simpl.
  - eauto.
  - rewrite Hvid. apply IH.
Qed.

(** ** The batch loop *)

(** What a run of the batch loop that returns has done: one statistics
    request per start index, appended to the log, and each batch merged
    with the mapping built from the response to its request. *)
Lemma batch_loop_spec w videos starts :
  forall final_data log out log',
    batch_loop w videos starts final_data log = Returns out log' ->
    listing_log log' = listing_log log /\
    exists qs ms,
      stats_log log' = stats_log log ++ qs /\
      length qs = length starts /\
      length ms = length starts /\
      (forall k m, ms !! k = Some m ->
         exists data, stats_response w log' (length (stats_log log) + k) = Some data /\
                      m = collect_stats ∅ (stat_items data)) /\
      out = final_data ++
            concat (zip_with (fun i m => with_views m <$> slice videos i (i + batch_size))
                             starts ms).
Proof.
  induction starts as [|i starts IH]; intros final_data log out log'.
  - simpl. unfold ret. intros [= <- <-]. split; [done|].
    exists [], []. rewrite !app_nil_r. repeat split; try done.
  - simpl batch_loop. unfold bind at 1, lift at 1.
    destruct (mapM _ (slice videos i (i + batch_size))) as [video_ids|]; [|done].
    unfold bind at 1. rewrite get_view_counts_returns.
    destruct (videos_api w (stats_log log) (stats_params w video_ids)) as [data|] eqn:Hdata;
      [|done].
    unfold bind at 1, lift at 1.
    destruct (merge_batch _ _ final_data) as [final_data'|] eqn:Hmerge; [|done].
    intros Hrest. apply IH in Hrest as (Hlisting & qs & ms & Hlog & Hqs & Hms & Hcalls & Hout).
    simpl in Hlisting, Hlog, Hcalls. split; [done|].
    assert (Hlog' : stats_log log' = stats_log log ++ stats_params w video_ids :: qs)
      by (by rewrite Hlog, <- app_assoc).
    exists (stats_params w video_ids :: qs), (collect_stats ∅ (stat_items data) :: ms).
    split; [done|].
    split; [simpl; lia|]. split; [simpl; lia|]. split.
    + intros [|k] m Hm.
      * injection Hm as <-. exists data. split; [|done].
        unfold stats_response. rewrite Hlog', Nat.add_0_r.
        rewrite list_lookup_middle by done. simpl.
        rewrite take_app_length. done.
      * destruct (Hcalls k m Hm) as (data' & Hresp & ->). exists data'. split; [|done].
        rewrite <- Hresp. f_equal. rewrite length_app. simpl. lia.
    + rewrite Hout, (merge_batch_spec _ _ _ _ Hmerge), <- app_assoc. done.
Qed.

(** The batch loop cannot fail when every record has an identifier and
    the statistics endpoint answers. *)
Lemma batch_loop_total w videos starts :
  Forall (fun video : gmap string string => is_Some (video !! "video_id")) videos ->
  (forall history q, is_Some (videos_api w history q)) ->
  forall final_data log, exists out log',
    batch_loop w videos starts final_data log = Returns out log'.
Proof.
  intros Hids Hapi. induction starts as [|i starts IH]; intros final_data log.
  - simpl. unfold ret. eauto.
  - simpl batch_loop. unfold bind at 1, lift at 1.
    assert (Hbatch : Forall (fun video : gmap string string => is_Some (video !! "video_id"))
                            (slice videos i (i + batch_size))).
    { unfold slice. by apply Forall_take, Forall_drop. }
    destruct (mapM_is_Some_2 (fun vid : gmap string string => vid !! "video_id") _ Hbatch)
      as [video_ids ->].
    unfold bind at 1. rewrite get_view_counts_returns.
    destruct (Hapi (stats_log log) (stats_params w video_ids)) as [data ->].
    unfold bind at 1, lift at 1.
    destruct (merge_batch_total (collect_stats ∅ (stat_items data)) _ final_data Hbatch)
      as [final_data' ->].
    apply IH.
Qed.

(** ** Batches of fifty put back together *)

Lemma range_0 n step : range 0 n step = (fun k => k * step) <$> seq 0 ((n + step - 1) / step).
Proof. unfold range. rewrite Nat.sub_0_r. done. Qed.

Lemma slice_batch {A} (l : list A) j :
  slice l (j * batch_size) (j * batch_size + batch_size) = take batch_size (drop (j * batch_size) l).
Proof. unfold slice. f_equal. lia. Qed.

Lemma lookup_batches {A B} (f : B -> A -> A) (videos : list A) c :
  forall j (ms : list B),
    length ms = c ->
    (c = 0 -> length videos <= batch_size * j) ->
    (0 < c -> batch_size * (j + c - 1) < length videos <= batch_size * (j + c)) ->
    forall t,
      concat (zip_with (fun i m => f m <$> slice videos i (i + batch_size))
                       ((fun k => k * batch_size) <$> seq j c) ms) !! t =
      match videos !! (batch_size * j + t) with
      | Some v => (fun m => f m v) <$> ms !! (t / batch_size)
      | None => None
      end.
Proof.
  induction c as [|c IH]; intros j ms Hms Hempty Hfull t.
  - rewrite (lookup_ge_None_2 videos) by (specialize (Hempty eq_refl); lia). done.
  - destruct ms as [|m ms]; [done|]. injection Hms as Hms.
    specialize (Hfull (Nat.lt_0_succ c)).
    rewrite <- cons_seq, fmap_cons. simpl zip_with. simpl concat.
    rewrite slice_batch.
    rewrite lookup_app, list_lookup_fmap, length_fmap, length_take, length_drop.
    destruct (decide (t < batch_size)) as [Ht|Ht].
    + rewrite lookup_take_lt, lookup_drop by done.
      replace (j * batch_size + t) with (batch_size * j + t) by lia.
      rewrite (Nat.div_small t batch_size) by done.
      destruct (videos !! (batch_size * j + t)) as [v|] eqn:Hv; [done|].
      apply lookup_ge_None_1 in Hv.
      assert (c = 0) as -> by (unfold batch_size in *; lia). done.
    + rewrite lookup_take_ge by lia.
      change (f m <$> None) with (@None A). cbv iota.
      destruct (decide (c = 0)) as [->|Hc].
      * rewrite (lookup_ge_None_2 videos) by (unfold batch_size in *; lia). done.
      * replace (t - batch_size `min` (length videos - j * batch_size))
          with (t - batch_size) by (unfold batch_size in *; lia).
        rewrite (IH (S j) ms Hms) by (unfold batch_size in *; lia).
        replace (batch_size * S j + (t - batch_size)) with (batch_size * j + t)
          by (unfold batch_size in *; lia).
        replace (t `div` batch_size) with (S ((t - batch_size) `div` batch_size))
          by (unfold batch_size in *; lia).
        done.
Qed.

(** ** get_video_data, record by record *)

Lemma get_videos_loop_stats_log fuel w :
  forall params videos log out log',
    get_videos_loop fuel w params videos log = Returns out log' ->
    stats_log log' = stats_log log.
Proof.
  induction fuel as [|fuel IH]; intros params videos log out log'; [done|].
  simpl get_videos_loop. unfold bind, requests_get_playlistItems.
  destruct (playlistItems_api w (listing_log log) params) as [data|]; [|done].
  destruct (truthy (nextPageToken data)).
  - intros Hrest. by rewrite (IH _ _ _ _ _ Hrest).
  - unfold ret. by intros [= _ <-].
Qed.

Lemma video_of_item_id item : video_of_item item !! "video_id" = Some (snippet_videoId item).
Proof. unfold video_of_item. by simplify_map_eq. Qed.

Lemma get_videos_loop_ids fuel w :
  forall params videos log out log',
    Forall (fun video : gmap string string => is_Some (video !! "video_id")) videos ->
    get_videos_loop fuel w params videos log = Returns out log' ->
    Forall (fun video : gmap string string => is_Some (video !! "video_id")) out.
Proof.
  induction fuel as [|fuel IH]; intros params videos log out log' Hids; [done|].
  simpl get_videos_loop. unfold bind, requests_get_playlistItems.
  destruct (playlistItems_api w (listing_log log) params) as [data|]; [|done].
  assert (Hids' : Forall (fun video : gmap string string => is_Some (video !! "video_id"))
                         (extend_videos videos (items data))).
  { rewrite extend_videos_app. apply Forall_app. split; [done|].
    apply Forall_fmap, Forall_forall. intros item _. simpl.
    rewrite video_of_item_id. eauto. }
  destruct (truthy (nextPageToken data)).
  - by apply IH.
  - unfold ret. by intros [= <- _].
Qed.

Lemma get_video_data_unfold fuel w playlist_id videos log1 :
  get_videos fuel w playlist_id empty_log = Returns videos log1 ->
  get_video_data fuel w playlist_id empty_log =
  batch_loop w videos (range 0 (length videos) batch_size) [] log1.
Proof. intros Hlist. unfold get_video_data, bind. by rewrite Hlist. Qed.

(** Each returned record is the listed one with its views taken from the
    response to the statistics call of its batch. *)
Lemma get_video_data_records fuel w playlist_id videos log1 out log2 :
  get_videos fuel w playlist_id empty_log = Returns videos log1 ->
  get_video_data fuel w playlist_id empty_log = Returns out log2 ->
  forall t,
    out !! t =
    match videos !! t with
    | Some v =>
        (fun data => with_views (collect_stats ∅ (stat_items data)) v)
          <$> stats_response w log2 (t / batch_size)
    | None => None
    end.
Proof.
  intros Hlist Hrun t.
  rewrite (get_video_data_unfold _ _ _ _ _ Hlist) in Hrun.
  apply get_videos_loop_stats_log in Hlist. simpl in Hlist.
  apply batch_loop_spec in Hrun as (_ & qs & ms & _ & _ & Hms & Hcalls & ->).
  rewrite Hlist in Hcalls. simpl in Hcalls.
  rewrite app_nil_l, range_0 in *. rewrite length_fmap, length_seq in Hms.
  rewrite (lookup_batches with_views videos _ 0 ms Hms)
    by (unfold batch_size; lia).
  rewrite Nat.mul_0_r. simpl (0 + t).
  destruct (videos !! t) as [v|] eqn:Hv; [|done].
  destruct (ms !! (t / batch_size)) as [m|] eqn:Hm.
  - destruct (Hcalls _ _ Hm) as (data & -> & ->). done.
  - apply lookup_lt_Some in Hv. apply lookup_ge_None_1 in Hm.
    unfold batch_size in *. lia.
Qed.

Lemma get_video_data_length fuel w playlist_id videos log1 out log2 :
  get_videos fuel w playlist_id empty_log = Returns videos log1 ->
  get_video_data fuel w playlist_id empty_log = Returns out log2 ->
  length out = length videos.
Proof.
  intros Hlist Hrun.
  pose proof (get_video_data_records _ _ _ _ _ _ _ Hlist Hrun) as Hrec.
  destruct (Nat.lt_trichotomy (length out) (length videos)) as [Hlt|[Heq|Hgt]]; [|done|].
  - destruct (lookup_lt_is_Some_2 videos (length out) Hlt) as [v Hv].
    specialize (Hrec (length out)). rewrite Hv, (lookup_ge_None_2 out) in Hrec by lia.
    destruct (stats_response w log2 (length out / batch_size)) as [data|] eqn:Hresp; [done|].
    exfalso. rewrite (get_video_data_unfold _ _ _ _ _ Hlist) in Hrun.
    apply get_videos_loop_stats_log in Hlist. simpl in Hlist.
    apply batch_loop_spec in Hrun as (_ & qs & ms & _ & _ & Hms & Hcalls & _).
    rewrite range_0, length_fmap, length_seq in Hms.
    destruct (lookup_lt_is_Some_2 ms (length out / batch_size)) as [m Hm];
      [unfold batch_size in *; lia|].
    destruct (Hcalls _ _ Hm) as (data & Hdata & _).
    rewrite Hlist in Hdata. simpl length in Hdata. rewrite Nat.add_0_l in Hdata.
    congruence.
  - destruct (lookup_lt_is_Some_2 out (length videos) Hgt) as [v Hv].
    specialize (Hrec (length videos)). rewrite Hv, (lookup_ge_None_2 videos) in Hrec by lia.
    done.
Qed.

Lemma collect_stats_lookup stats its k x :
  collect_stats stats its !! k = Some x ->
  stats !! k = Some x \/ exists item, item ∈ its /\ item_id item = k /\ viewCount item = x.
Proof.
  revert stats. induction its as [|item its IH]; intros stats; [by left|].
  unfold collect_stats in *. simpl. intros Hk.
  destruct (IH _ Hk) as [Hhere | (item' & Hin & Hid & Hcount)].
  - destruct (decide (item_id item = k)) as [Heq|Hne].
    + rewrite Heq, lookup_insert_eq in Hhere. injection Hhere as <-.
      right. exists item. split; [left|done].
    + rewrite lookup_insert_ne in Hhere by done. by left.
  - right. exists item'. split; [by right|done].
Qed.

Lemma collect_stats_snoc stats its item :
  collect_stats stats (its ++ [item]) =
  <[item_id item := viewCount item]> (collect_stats stats its).
Proof. unfold collect_stats. by rewrite foldl_snoc. Qed.

Lemma collect_stats_last stats its k :
  collect_stats stats its !! k =
  match last (filter (fun item => item_id item = k) its) with
  | Some item => Some (viewCount item)
  | None => stats !! k
  end.
Proof.
  induction its as [|item its IH] using rev_ind; [done|].
  rewrite collect_stats_snoc, filter_app.
  destruct (decide (item_id item = k)) as [Heq|Hne].
  - rewrite filter_cons_True by done. rewrite filter_nil, last_snoc.
    by rewrite Heq, lookup_insert_eq.
  - rewrite filter_cons_False by done. rewrite filter_nil, app_nil_r.
    by rewrite lookup_insert_ne.
Qed.

(** What the merge made of a listed record. *)
Lemma get_video_data_listed fuel w playlist_id videos log1 out log2 :
  get_videos fuel w playlist_id empty_log = Returns videos log1 ->
  get_video_data fuel w playlist_id empty_log = Returns out log2 ->
  forall t video, videos !! t = Some video ->
    exists vid data,
      video !! "video_id" = Some vid /\
      stats_response w log2 (t / batch_size) = Some data /\
      out !! t =
        Some (<["views" := default "0" (collect_stats ∅ (stat_items data) !! vid)]> video).
Proof.
  intros Hlist Hrun t video Hvideo.
  pose proof (get_videos_loop_ids _ _ _ _ _ _ _ (Forall_nil_2 _) Hlist) as Hids.
  rewrite Forall_lookup in Hids. destruct (Hids _ _ Hvideo) as [vid Hvid].
  destruct (lookup_lt_is_Some_2 out t) as [record Hrecord].
  { rewrite (get_video_data_length _ _ _ _ _ _ _ Hlist Hrun).
    by apply lookup_lt_Some in Hvideo. }
  pose proof Hrecord as Hrecord'.
  rewrite (get_video_data_records _ _ _ _ _ _ _ Hlist Hrun), Hvideo in Hrecord'.
  destruct (stats_response w log2 (t / batch_size)) as [data|]; [|done].
  injection Hrecord' as <-. exists vid, data. split; [done|]. split; [done|].
  rewrite Hrecord. unfold with_views. by rewrite Hvid.
Qed.

(** [get_video_data] returns when the listing did and the statistics
    endpoint answers. *)
Lemma get_video_data_returns fuel w playlist_id videos log1 :
  get_videos fuel w playlist_id empty_log = Returns videos log1 ->
  (forall history q, is_Some (videos_api w history q)) ->
  exists out log2, get_video_data fuel w playlist_id empty_log = Returns out log2.
Proof.
  intros Hlist Hapi.
  pose proof (get_videos_loop_ids _ _ _ _ _ _ _ (Forall_nil_2 _) Hlist) as Hids.
  destruct (batch_loop_total w videos (range 0 (length videos) batch_size) Hids Hapi [] log1)
    as (out & log2 & Hloop).
  rewrite <- (get_video_data_unfold _ _ _ _ _ Hlist) in Hloop. eauto.
Qed.

Lemma get_video_data_lists fuel w playlist_id out log2 :
  get_video_data fuel w playlist_id empty_log = Returns out log2 ->
  exists videos log1, get_videos fuel w playlist_id empty_log = Returns videos log1.
Proof.
  unfold get_video_data, bind.
  destruct (get_videos fuel w playlist_id empty_log) as [videos log1| |]; [|done..].
  eauto.
Qed.

(** A returned record, spelled out. *)
Lemma get_video_data_record fuel w playlist_id out log2 t record :
  get_video_data fuel w playlist_id empty_log = Returns out log2 ->
  out !! t = Some record ->
  exists video vid data,
    video !! "video_id" = Some vid /\
    stats_response w log2 (t / batch_size) = Some data /\
    record = <["views" := default "0" (collect_stats ∅ (stat_items data) !! vid)]> video.
Proof.
  intros Hrun Hrecord.
  destruct (get_video_data_lists _ _ _ _ _ Hrun) as (videos & log1 & Hlist).
  rewrite (get_video_data_records _ _ _ _ _ _ _ Hlist Hrun) in Hrecord.
  destruct (videos !! t) as [video|] eqn:Hvideo; [|done].
  destruct (stats_response w log2 (t / batch_size)) as [data|]; [|done].
  injection Hrecord as <-.
  pose proof (get_videos_loop_ids _ _ _ _ _ _ _ (Forall_nil_2 _) Hlist) as Hids.
  rewrite Forall_lookup in Hids. destruct (Hids _ _ Hvideo) as [vid Hvid].
  exists video, vid, data. split; [done|]. split; [done|].
  unfold with_views. rewrite Hvid. done.
Qed.

(** ** The claims about the statistics and the merge *)

(** C4, as stated, fails: the mapping is keyed by whatever identifiers the
    response carries, requested or not. *)
Lemma get_view_counts_foreign_key :
  ~ (forall (w : World) (video_ids : list string) (log : Log)
            (stats : gmap string string) (log' : Log),
        length video_ids <= 50 ->
        get_view_counts w video_ids log = Returns stats log' ->
        dom stats ⊆ list_to_set video_ids).
Proof.
  intros Hclaim.
  pose proof (Hclaim
    {| API_KEY := None;
       playlistItems_api := fun _ _ => None;
       videos_api := fun _ _ =>
         Some {| stat_items := [ {| item_id := "other"; viewCount := "7" |} ] |} |}
    ["a"] empty_log _ _ ltac:(simpl; lia) eq_refl) as Hsub.
  assert (Hin : "other" ∈ dom (collect_stats ∅ [ {| item_id := "other"; viewCount := "7" |} ])).
  { rewrite dom_collect_stats. apply elem_of_union_r. simpl. apply elem_of_union_l.
    by apply elem_of_singleton. }
  apply Hsub in Hin. apply elem_of_list_to_set, list_elem_of_singleton in Hin. done.
Qed.

(** C4, amended: the keys of the returned mapping are exactly the
    identifiers of the items in the response; they are among the requested
    identifiers whenever the response only carries requested ones. *)
Theorem get_view_counts_keys (w : World) (video_ids : list string) (log : Log)
    (stats : gmap string string) (log' : Log) :
  get_view_counts w video_ids log = Returns stats log' ->
  exists data,
    videos_api w (stats_log log) (stats_params w video_ids) = Some data /\
    dom stats = list_to_set (item_id <$> stat_items data) /\
    (Forall (fun item => item_id item ∈ video_ids) (stat_items data) ->
     dom stats ⊆ list_to_set video_ids).
Proof.
  rewrite get_view_counts_returns.
  destruct (videos_api w (stats_log log) (stats_params w video_ids)) as [data|]; [|done].
  intros [= <- _]. exists data. split; [done|].
  assert (Hdom : dom (collect_stats ∅ (stat_items data)) =
                 list_to_set (C := gset string) (item_id <$> stat_items data)).
  { rewrite dom_collect_stats, dom_empty_L. by rewrite union_empty_l_L. }
  split; [done|]. intros Hasked k. rewrite Hdom, !elem_of_list_to_set.
  intros (item & -> & Hitem)%list_elem_of_fmap.
  rewrite Forall_forall in Hasked. by apply Hasked.
Qed.

(** C4, for the first fifty identifiers of the sample playlist. *)
Lemma get_view_counts_keys_witness :
  exists stats log',
    get_view_counts (sample_world 120) (snippet_videoId <$> sample_items 50) empty_log
      = Returns stats log' /\
    exists data,
      videos_api (sample_world 120) (stats_log empty_log)
        (stats_params (sample_world 120) (snippet_videoId <$> sample_items 50)) = Some data /\
      dom stats = list_to_set (item_id <$> stat_items data) /\
      (Forall (fun item => item_id item ∈ snippet_videoId <$> sample_items 50) (stat_items data) ->
       dom stats ⊆ list_to_set (snippet_videoId <$> sample_items 50)).
Proof.
  eexists _, _. split; [reflexivity|].
  eapply (get_view_counts_keys (sample_world 120) (snippet_videoId <$> sample_items 50) empty_log).
  reflexivity.
Defined.

(** C2: whenever the listing returns and the statistics endpoint answers,
    [get_video_data] returns as many records as were listed, and the
    record at each position is the listed record of that position with a
    [views] entry added; nothing is reordered, whatever the length. *)
Theorem get_video_data_keeps_order (fuel : nat) (w : World) (playlist_id : string)
    (videos : list (gmap string string)) (log1 : Log) :
  get_videos fuel w playlist_id empty_log = Returns videos log1 ->
  (forall history q, is_Some (videos_api w history q)) ->
  exists out log2,
    get_video_data fuel w playlist_id empty_log = Returns out log2 /\
    length out = length videos /\
    forall t video, videos !! t = Some video ->
      exists views, out !! t = Some (<["views" := views]> video).
Proof.
  intros Hlist Hapi.
  pose proof (get_videos_loop_ids _ _ _ _ _ _ _ (Forall_nil_2 _) Hlist) as Hids.
  destruct (batch_loop_total w videos (range 0 (length videos) batch_size) Hids Hapi [] log1)
    as (out & log2 & Hloop).
  rewrite <- (get_video_data_unfold _ _ _ _ _ Hlist) in Hloop.
  exists out, log2. split; [done|].
  pose proof (get_video_data_length _ _ _ _ _ _ _ Hlist Hloop) as Hlen.
  split; [done|]. intros t video Hvideo.
  destruct (lookup_lt_is_Some_2 out t) as [record Hrecord].
  { rewrite Hlen. by apply lookup_lt_Some in Hvideo. }
  pose proof Hrecord as Hrecord'.
  rewrite (get_video_data_records _ _ _ _ _ _ _ Hlist Hloop), Hvideo in Hrecord'.
  destruct (stats_response w log2 (t / batch_size)) as [data|]; [|done].
  injection Hrecord' as <-. rewrite Hrecord. unfold with_views. eauto.
Qed.

(** C2, on the playlist of 120 videos. *)
Lemma get_video_data_keeps_order_witness :
  exists videos log1 out log2,
    get_videos 3 (sample_world 120) "PL" empty_log = Returns videos log1 /\
    get_video_data 3 (sample_world 120) "PL" empty_log = Returns out log2 /\
    length out = length videos /\
    forall t video, videos !! t = Some video ->
      exists views, out !! t = Some (<["views" := views]> video).
Proof.
  assert (Hret : returned (get_videos 3 (sample_world 120) "PL" empty_log) = true)
    by (vm_compute; reflexivity).
  destruct (get_videos 3 (sample_world 120) "PL" empty_log) as [videos log1| |] eqn:Hlist;
    [|discriminate Hret..].
  destruct (get_video_data_keeps_order 3 (sample_world 120) "PL" videos log1 Hlist)
    as (out & log2 & Hrun & Hlen & Horder).
  { intros history q. unfold sample_world, sample_stats. simpl. eauto. }
  exists videos, log1, out, log2. repeat split; done.
Defined.

(** C3: once the listing has returned, [get_video_data] returns whenever
    the statistics endpoint answers, and in every run that returns each
    listed video has its record in the output, at its position, with a
    [views] entry; when the video's identifier is missing from the mapping
    built from the response to its batch's statistics call, that entry is
    the string [0]. *)
Theorem merge_defaults_views (fuel : nat) (w : World) (playlist_id : string)
    (videos : list (gmap string string)) (log1 : Log) :
  get_videos fuel w playlist_id empty_log = Returns videos log1 ->
  ((forall history q, is_Some (videos_api w history q)) ->
   exists out log2, get_video_data fuel w playlist_id empty_log = Returns out log2) /\
  forall out log2,
    get_video_data fuel w playlist_id empty_log = Returns out log2 ->
    length out = length videos /\
    forall t video, videos !! t = Some video ->
      exists vid data record,
        video !! "video_id" = Some vid /\
        stats_response w log2 (t / batch_size) = Some data /\
        out !! t = Some record /\
        record !! "video_id" = Some vid /\
        is_Some (record !! "views") /\
        (collect_stats ∅ (stat_items data) !! vid = None ->
         record !! "views" = Some "0").
Proof.
  intros Hlist. split; [exact (get_video_data_returns _ _ _ _ _ Hlist)|].
  intros out log2 Hrun. split; [exact (get_video_data_length _ _ _ _ _ _ _ Hlist Hrun)|].
  intros t video Hvideo.
  destruct (get_video_data_listed _ _ _ _ _ _ _ Hlist Hrun t video Hvideo)
    as (vid & data & Hvid & Hdata & Hrecord).
  exists vid, data. eexists. split; [done|]. split; [done|]. split; [exact Hrecord|].
  split; [by rewrite lookup_insert_ne|]. split; [rewrite lookup_insert_eq; eauto|].
  intros ->. by rewrite lookup_insert_eq.
Qed.

(** C3, on the playlist of 120 videos. *)
Lemma merge_defaults_views_witness :
  exists videos log1,
    get_videos 3 (sample_world 120) "PL" empty_log = Returns videos log1 /\
    ((forall history q, is_Some (videos_api (sample_world 120) history q)) ->
     exists out log2,
       get_video_data 3 (sample_world 120) "PL" empty_log = Returns out log2) /\
    forall out log2,
      get_video_data 3 (sample_world 120) "PL" empty_log = Returns out log2 ->
      length out = length videos /\
      forall t video, videos !! t = Some video ->
        exists vid data record,
          video !! "video_id" = Some vid /\
          stats_response (sample_world 120) log2 (t / batch_size) = Some data /\
          out !! t = Some record /\
          record !! "video_id" = Some vid /\
          is_Some (record !! "views") /\
          (collect_stats ∅ (stat_items data) !! vid = None ->
           record !! "views" = Some "0").
Proof.
  assert (Hret : returned (get_videos 3 (sample_world 120) "PL" empty_log) = true)
    by (vm_compute; reflexivity).
  destruct (get_videos 3 (sample_world 120) "PL" empty_log) as [videos log1| |] eqn:Hlist;
    [|discriminate Hret..].
  exists videos, log1. split; [reflexivity|].
  apply (merge_defaults_views 3 (sample_world 120) "PL" videos log1 Hlist).
Defined.

(** ** The views of the returned records *)

(** C5, as stated, fails: the merge copies whatever the statistics response
    carries as view count, a number or not. *)
Lemma views_not_a_number :
  ~ (forall (fuel : nat) (w : World) (playlist_id : string)
            (out : list (gmap string string)) (log2 : Log),
        get_video_data fuel w playlist_id empty_log = Returns out log2 ->
        Forall (fun record : gmap string string =>
                  exists views, record !! "views" = Some views /\
                                is_Some (parse_count views)) out).
Proof.
  intros Hclaim.
  assert (Hviews :
    match get_video_data 1 sample_world_no_count "PL" empty_log with
    | Returns out _ => (fun record : gmap string string => record !! "views") <$> out
    | _ => []
    end = [Some "n/a"]) by (vm_compute; reflexivity).
  destruct (get_video_data 1 sample_world_no_count "PL" empty_log)
    as [out log2| |] eqn:Hrun; [|done..].
  apply Hclaim in Hrun. destruct out as [|record out]; [done|].
  injection Hviews as Hrecord _. apply Forall_cons_1 in Hrun as [(views & Hv & Hparse) _].
  rewrite Hrecord in Hv. injection Hv as <-. by destruct Hparse.
Qed.

Lemma stats_response_answer w log k data :
  stats_response w log k = Some data ->
  exists history q, videos_api w history q = Some data.
Proof.
  unfold stats_response. destruct (stats_log log !! k) as [q|]; [|done].
  simpl. eauto.
Qed.

(** C5, amended: in every run of [get_video_data] that returns, each
    listed video has its record in the output, at its position, and the
    record's [views] is the count the response to its batch's statistics
    call reports for its identifier (the last one, when it is reported
    more than once) or the fallback [0] when it reports none; when every
    count of that response is a decimal numeral, the [views] is one. *)
Theorem views_resolve (fuel : nat) (w : World) (playlist_id : string)
    (videos : list (gmap string string)) (log1 : Log)
    (out : list (gmap string string)) (log2 : Log) :
  get_videos fuel w playlist_id empty_log = Returns videos log1 ->
  get_video_data fuel w playlist_id empty_log = Returns out log2 ->
  length out = length videos /\
  forall t video, videos !! t = Some video ->
    exists vid data record views,
      video !! "video_id" = Some vid /\
      stats_response w log2 (t / batch_size) = Some data /\
      out !! t = Some record /\
      record !! "views" = Some views /\
      views = default "0" (viewCount <$> last (filter (fun item => item_id item = vid)
                                                     (stat_items data))) /\
      (Forall (fun item => is_Some (parse_count (viewCount item))) (stat_items data) ->
       is_Some (parse_count views)).
Proof.
  intros Hlist Hrun. split; [exact (get_video_data_length _ _ _ _ _ _ _ Hlist Hrun)|].
  intros t video Hvideo.
  destruct (get_video_data_listed _ _ _ _ _ _ _ Hlist Hrun t video Hvideo)
    as (vid & data & Hvid & Hdata & Hrecord).
  exists vid, data. eexists _, _. split; [done|]. split; [done|]. split; [exact Hrecord|].
  split; [apply lookup_insert_eq|].
  rewrite collect_stats_last.
  destruct (last (filter (fun item => item_id item = vid) (stat_items data)))
    as [item|] eqn:Hlast.
  - split; [done|]. intros Hcounts. simpl. rewrite Forall_forall in Hcounts.
    apply Hcounts. apply last_Some_elem_of in Hlast.
    by apply list_elem_of_filter in Hlast as [_ Hin].
  - split; [done|]. intros _. by exists 0%N.
Qed.

(** C5, on the playlist of 120 videos. *)
Lemma views_resolve_witness :
  exists videos log1 out log2,
    get_videos 3 (sample_world 120) "PL" empty_log = Returns videos log1 /\
    get_video_data 3 (sample_world 120) "PL" empty_log = Returns out log2 /\
    length out = length videos /\
    forall t video, videos !! t = Some video ->
      exists vid data record views,
        video !! "video_id" = Some vid /\
        stats_response (sample_world 120) log2 (t / batch_size) = Some data /\
        out !! t = Some record /\
        record !! "views" = Some views /\
        views = default "0" (viewCount <$> last (filter (fun item => item_id item = vid)
                                                       (stat_items data))) /\
        (Forall (fun item => is_Some (parse_count (viewCount item))) (stat_items data) ->
         is_Some (parse_count views)).
Proof.
  assert (Hret1 : returned (get_videos 3 (sample_world 120) "PL" empty_log) = true)
    by (vm_compute; reflexivity).
  assert (Hret2 : returned (get_video_data 3 (sample_world 120) "PL" empty_log) = true)
    by (vm_compute; reflexivity).
  destruct (get_videos 3 (sample_world 120) "PL" empty_log) as [videos log1| |] eqn:Hlist;
    [|discriminate Hret1..].
  destruct (get_video_data 3 (sample_world 120) "PL" empty_log) as [out log2| |] eqn:Hrun;
    [|discriminate Hret2..].
  exists videos, log1, out, log2. split; [reflexivity|]. split; [reflexivity|].
  apply (views_resolve 3 (sample_world 120) "PL" videos log1 out log2 Hlist Hrun).
Defined.

(** ** Strings *)

Lemma append_cons c (s1 s2 : string) : String c s1 +:+ s2 = String c (s1 +:+ s2).
Proof. reflexivity. Qed.

Lemma append_empty_l (s : string) : "" +:+ s = s.
Proof. reflexivity. Qed.

Lemma append_assoc (s1 s2 s3 : string) : (s1 +:+ s2) +:+ s3 = s1 +:+ (s2 +:+ s3).
Proof. induction s1 as [|c s1 IH]; [done|]. by rewrite !append_cons, IH. Qed.

Lemma append_empty_r (s : string) : s +:+ "" = s.
Proof. induction s as [|c s IH]; [done|]. by rewrite append_cons, IH. Qed.

Lemma count_char_app c (s1 s2 : string) :
  count_char c (s1 +:+ s2) = count_char c s1 + count_char c s2.
Proof.
  induction s1 as [|d s1 IH]; [done|].
  rewrite append_cons. simpl. rewrite IH. lia.
Qed.

(** ** The writer *)

Lemma DictWriter_writeheader_fieldnames :
  DictWriter_writeheader fieldnames = Some header_line.
Proof. vm_compute. reflexivity. Qed.

Lemma clean_video_Some video :
  has_columns video ->
  exists title url views,
    video !! "title" = Some title /\ video !! "video_url" = Some url /\
    video !! "views" = Some views /\
    clean_video video =
    Some (list_to_map [("title", title); ("video_url", url); ("views", views)]).
Proof.
  unfold has_columns, fieldnames. rewrite !Forall_cons.
  intros ([title Ht] & [url Hu] & [views Hv] & _).
  exists title, url, views. unfold clean_video, fieldnames. simpl.
  rewrite Ht, Hu, Hv. done.
Qed.

Lemma clean_video_None video :
  ~ has_columns video -> clean_video video = None.
Proof.
  unfold has_columns, fieldnames, clean_video. rewrite !Forall_cons. simpl.
  destruct (video !! "title"), (video !! "video_url"), (video !! "views"); simpl;
    try done.
  intros Hno. exfalso. apply Hno. repeat split; eauto.
Qed.

Lemma DictWriter_writerow_clean (title url views : string) :
  DictWriter_writerow fieldnames
    (list_to_map [("title", title); ("video_url", url); ("views", views)]) =
  Some (csv_writerow [title; url; views]).
Proof.
  unfold DictWriter_writerow. case_decide as Hdom.
  - reflexivity.
  - exfalso. apply Hdom. simpl. rewrite !dom_insert_L, dom_empty_L.
    unfold fieldnames. simpl. done.
Qed.

Lemma csv_row_columns video title url views :
  video !! "title" = Some title -> video !! "video_url" = Some url ->
  video !! "views" = Some views ->
  csv_row video = csv_writerow [title; url; views].
Proof. intros Ht Hu Hv. unfold csv_row, fieldnames. simpl. by rewrite Ht, Hu, Hv. Qed.

Lemma DictWriter_writerows_clean data :
  forall rows f,
    mapM clean_video data = Some rows ->
    Forall has_columns data /\
    DictWriter_writerows fieldnames rows f = (f +:+ join_lines (csv_row <$> data), true).
Proof.
  intros rows f Hclean. apply mapM_Some_1 in Hclean. revert f.
  induction Hclean as [|video row data rows Hrow _ IH]; intros f.
  - split; [done|]. simpl. by rewrite append_empty_r.
  - assert (Hcols : has_columns video).
    { destruct (decide (Forall (fun key => is_Some (video !! key)) fieldnames)) as [|Hno];
        [done|]. by rewrite (clean_video_None video Hno) in Hrow. }
    destruct (clean_video_Some video Hcols) as (title & url & views & Ht & Hu & Hv & Hrow').
    assert (row = list_to_map [("title", title); ("video_url", url); ("views", views)])
      as -> by congruence.
    destruct (IH (f +:+ csv_writerow [title; url; views])) as [Hall Hrest].
    split; [by constructor|].
    cbn [DictWriter_writerows]. rewrite DictWriter_writerow_clean, Hrest.
    rewrite fmap_cons. cbn [join_lines foldr].
    rewrite (csv_row_columns video title url views Ht Hu Hv), append_assoc. done.
Qed.

Lemma mapM_clean_video_columns data :
  Forall has_columns data -> is_Some (mapM clean_video data).
Proof.
  intros Hall. apply mapM_is_Some_2. eapply Forall_impl; [exact Hall|].
  intros video Hcols. simpl.
  destruct (clean_video_Some video Hcols) as (? & ? & ? & _ & _ & _ & ->). eauto.
Qed.

(** What a completed run leaves behind. *)
Lemma write_data_saved data channel_name sys :
  Forall has_columns data ->
  write_data data channel_name sys =
  Saved (print (saved_message channel_name)
               (set_file (channel_name +:+ ".csv") (csv_text data) sys)).
Proof.
  intros Hall. unfold write_data.
  destruct (mapM_clean_video_columns data Hall) as [rows Hrows]. rewrite Hrows.
  rewrite DictWriter_writeheader_fieldnames.
  destruct (DictWriter_writerows_clean data rows header_line Hrows) as [_ ->].
  reflexivity.
Qed.

Lemma write_data_Saved_columns data channel_name sys sys1 :
  write_data data channel_name sys = Saved sys1 -> Forall has_columns data.
Proof.
  unfold write_data. destruct (mapM clean_video data) as [rows|] eqn:Hrows; [|done].
  intros _. by destruct (DictWriter_writerows_clean data rows header_line Hrows).
Qed.

Lemma saved_true r : saved r = true -> exists sys1, r = Saved sys1.
Proof. destruct r; [eauto|done]. Qed.

(** ** The claims about the writer *)

(** C6: a run of [write_data] that completes leaves a file whose content
    is a function of the records and the channel name alone, so a second
    run on the same input, from the state the first one left or from any
    other, writes the same bytes. *)
Theorem write_data_idempotent (data : list (gmap string string)) (channel_name : string)
    (sys sys1 : Sys) :
  write_data data channel_name sys = Saved sys1 ->
  (exists sys2, write_data data channel_name sys1 = Saved sys2 /\
                files sys2 = files sys1) /\
  (forall sys', exists sys1',
      write_data data channel_name sys' = Saved sys1' /\
      files sys1' !! (channel_name +:+ ".csv") = files sys1 !! (channel_name +:+ ".csv")).
Proof.
  intros Hrun. pose proof (write_data_Saved_columns _ _ _ _ Hrun) as Hall.
  rewrite (write_data_saved _ _ _ Hall) in Hrun. injection Hrun as <-.
  split.
  - eexists. split; [apply (write_data_saved _ _ _ Hall)|].
    simpl. apply insert_insert_eq.
  - intros sys'. eexists. split; [apply (write_data_saved _ _ _ Hall)|].
    simpl. by rewrite !lookup_insert_eq.
Qed.

(** C6, on the sample records. *)
Lemma write_data_idempotent_witness :
  exists sys1,
    write_data sample_records "Ben Heath" empty_sys = Saved sys1 /\
    (exists sys2, write_data sample_records "Ben Heath" sys1 = Saved sys2 /\
                  files sys2 = files sys1) /\
    (forall sys', exists sys1',
        write_data sample_records "Ben Heath" sys' = Saved sys1' /\
        files sys1' !! ("Ben Heath" +:+ ".csv") = files sys1 !! ("Ben Heath" +:+ ".csv")).
Proof.
  destruct (saved_true (write_data sample_records "Ben Heath" empty_sys))
    as [sys1 Hrun]; [vm_compute; reflexivity|].
  exists sys1. split; [exact Hrun|].
  apply (write_data_idempotent sample_records "Ben Heath" empty_sys sys1 Hrun).
Defined.

(** ** The writer under an operating system that can refuse *)

(** On records that have the three columns, only the operating system
    stops [write_data_in]. *)
Lemma write_data_in_cases env data channel_name sys :
  Forall has_columns data ->
  write_data_in env data channel_name sys =
  if has_nul (channel_name +:+ ".csv") || negb (may_open env (channel_name +:+ ".csv"))
  then Failed sys
  else
    match write_fault env (channel_name +:+ ".csv") (csv_text data) with
    | Some partial => Failed (set_file (channel_name +:+ ".csv") partial sys)
    | None =>
        if may_print env (saved_message channel_name)
        then Saved (print (saved_message channel_name)
                          (set_file (channel_name +:+ ".csv") (csv_text data) sys))
        else Failed (set_file (channel_name +:+ ".csv") (csv_text data) sys)
    end.
Proof.
  intros Hall. unfold write_data_in.
  destruct (mapM_clean_video_columns data Hall) as [rows Hrows]. rewrite Hrows.
  rewrite DictWriter_writeheader_fieldnames.
  destruct (DictWriter_writerows_clean data rows header_line Hrows) as [_ ->].
  reflexivity.
Qed.

(** A run that completes under some operating system is the run of
    [write_data]. *)
Lemma write_data_in_refines env data channel_name sys sys1 :
  write_data_in env data channel_name sys = Saved sys1 ->
  write_data data channel_name sys = Saved sys1.
Proof.
  unfold write_data_in, write_data.
  destruct (mapM clean_video data) as [rows|]; [|done].
  destruct (has_nul _ || negb _); [done|].
  destruct (DictWriter_writeheader fieldnames) as [header|]; [|done].
  destruct (DictWriter_writerows fieldnames rows header) as [f []]; [|done].
  destruct (write_fault env _ f); [done|].
  by destruct (may_print env _).
Qed.

(** Under the operating system that refuses nothing, and for a name
    without a null byte, [write_data_in] is [write_data]. *)
Lemma write_data_in_permissive data channel_name sys :
  has_nul (channel_name +:+ ".csv") = false ->
  write_data_in permissive_env data channel_name sys = write_data data channel_name sys.
Proof.
  intros Hnul. unfold write_data_in, write_data.
  destruct (mapM clean_video data) as [rows|]; [|done].
  rewrite Hnul. simpl.
  destruct (DictWriter_writeheader fieldnames) as [header|]; [|done].
  by destruct (DictWriter_writerows fieldnames rows header) as [f []].
Qed.

(** A missing column stops [write_data_in] before the operating system is
    asked for anything. *)
Lemma write_data_in_missing_column env data channel_name sys :
  ~ Forall has_columns data -> write_data_in env data channel_name sys = Failed sys.
Proof.
  intros Hno. unfold write_data_in.
  assert (Hnone : mapM clean_video data = None).
  { apply mapM_None_2.
    apply (not_Forall_Exists (fun video : gmap string string =>
                                Forall (fun key => is_Some (video !! key)) fieldnames)) in Hno.
    eapply Exists_impl; [exact Hno|]. intros video Hvideo. simpl.
    by apply clean_video_None. }
  by rewrite Hnone.
Qed.

(** A run on records with the three columns that fails was refused by the
    operating system; it printed nothing and changed no other file. *)
Lemma write_data_in_failed env data channel_name sys sys' :
  Forall has_columns data ->
  write_data_in env data channel_name sys = Failed sys' ->
  refused env (channel_name +:+ ".csv") (csv_text data) (saved_message channel_name) /\
  stdout sys' = stdout sys /\
  (forall name, name <> channel_name +:+ ".csv" -> files sys' !! name = files sys !! name).
Proof.
  intros Hall. rewrite (write_data_in_cases env data channel_name sys Hall). unfold refused.
  destruct (has_nul (channel_name +:+ ".csv")) eqn:Hnul; simpl.
  { intros [= <-]. split; [by left|]. done. }
  destruct (may_open env (channel_name +:+ ".csv")) eqn:Hopen; simpl.
  2:{ intros [= <-]. split; [right; by left|]. done. }
  destruct (write_fault env (channel_name +:+ ".csv") (csv_text data)) as [partial|] eqn:Hfault.
  { intros [= <-]. split; [right; right; by left|]. split; [done|].
    intros name Hname. simpl. by rewrite lookup_insert_ne. }
  destruct (may_print env (saved_message channel_name)) eqn:Hprint; [done|].
  intros [= <-]. split; [right; right; by right|]. split; [done|].
  intros name Hname. simpl. by rewrite lookup_insert_ne.
Qed.




(** ** Lines and records of the written text *)

Lemma csv_writerow_three (a b c : string) :
  csv_writerow [a; b; c] =
  csv_field a +:+ String delimiter (csv_field b +:+ String delimiter
                                      (csv_field c +:+ lineterminator)).
Proof.
  unfold csv_writerow. cbn [fmap list_fmap String.concat].
  destruct (csv_field a) as [|x fa];
    repeat (rewrite append_cons || rewrite append_empty_l || rewrite append_assoc);
    cbv iota;
    repeat (rewrite append_cons || rewrite append_empty_l || rewrite append_assoc);
    reflexivity.
Qed.

Lemma count_LF_double_quotes (s : string) :
  count_char LF (csv_double_quotes s) = count_char LF s.
Proof.
  induction s as [|c s IH]; [done|]. simpl.
  destruct (Ascii.eqb c quotechar) eqn:Hq; simpl; rewrite IH.
  - apply Ascii.eqb_eq in Hq as ->. reflexivity.
  - reflexivity.
Qed.

Lemma count_LF_field (s : string) : count_char LF (csv_field s) = count_char LF s.
Proof.
  unfold csv_field. destruct (string_exists csv_special s); [|done].
  simpl. rewrite count_char_app, count_LF_double_quotes. simpl. lia.
Qed.

Lemma line_count_writerow (a b c : string) :
  line_count (csv_writerow [a; b; c]) =
  1 + (count_char LF a + (count_char LF b + (count_char LF c + 0))).
Proof.
  unfold line_count. rewrite csv_writerow_three.
  rewrite count_char_app, count_LF_field. simpl.
  rewrite count_char_app, count_LF_field. simpl.
  rewrite count_char_app, count_LF_field. simpl. lia.
Qed.

Lemma line_count_join_rows data :
  Forall has_columns data ->
  line_count (join_lines (csv_row <$> data)) = length data + embedded_line_feeds data.
Proof.
  unfold embedded_line_feeds.
  induction 1 as [|video data Hcols _ IH]; [done|].
  destruct (clean_video_Some video Hcols) as (title & url & views & Ht & Hu & Hv & _).
  rewrite !fmap_cons. cbn [join_lines foldr sum_list sum_list_with length].
  fold (join_lines (csv_row <$> data)).
  unfold line_count in *. rewrite count_char_app, IH.
  rewrite (csv_row_columns video title url views Ht Hu Hv).
  pose proof (line_count_writerow title url views) as Hrow. unfold line_count in Hrow.
  rewrite Hrow. unfold fieldnames. cbn [fmap list_fmap sum_list sum_list_with].
  rewrite Ht, Hu, Hv. simpl default. unfold id. lia.
Qed.

(** A field written without quotes holds no quote and no line feed: a
    reader passes over it without changing state. *)
Lemma csv_record_count_plain (s rest : string) in_quotes :
  string_exists csv_special s = false ->
  csv_record_count in_quotes (s +:+ rest) = csv_record_count in_quotes rest.
Proof.
  induction s as [|c s IH]; [done|].
  cbn [string_exists]. intros [Hc Hs]%orb_false_elim.
  rewrite append_cons. cbn [csv_record_count].
  unfold csv_special in Hc.
  apply orb_false_elim in Hc as [[_ Hquote]%orb_false_elim Hterm].
  cbn [string_exists lineterminator] in Hterm.
  apply orb_false_elim in Hterm as [_ [HLF _]%orb_false_elim].
  rewrite Hquote, HLF. simpl. by apply IH.
Qed.

(** Inside quotes a reader stays inside over the doubled text. *)
Lemma csv_record_count_quoted (s rest : string) :
  csv_record_count true (csv_double_quotes s +:+ rest) = csv_record_count true rest.
Proof.
  induction s as [|c s IH]; [done|].
  cbn [csv_double_quotes].
  destruct (Ascii.eqb c quotechar) eqn:Hquote.
  - rewrite !append_cons. cbn [csv_record_count].
    change (Ascii.eqb quotechar quotechar) with true. cbv iota. exact IH.
  - rewrite append_cons. cbn [csv_record_count]. rewrite Hquote.
    rewrite andb_false_r. exact IH.
Qed.

Lemma csv_record_count_field (s rest : string) :
  csv_record_count false (csv_field s +:+ rest) = csv_record_count false rest.
Proof.
  unfold csv_field. destruct (string_exists csv_special s) eqn:Hspecial.
  - rewrite append_cons, append_assoc, append_cons, append_empty_l.
    cbn [csv_record_count]. change (Ascii.eqb quotechar quotechar) with true. cbv iota.
    change (negb false) with true. rewrite csv_record_count_quoted.
    cbn [csv_record_count]. change (Ascii.eqb quotechar quotechar) with true. done.
  - by apply csv_record_count_plain.
Qed.

Lemma csv_record_count_writerow (a b c rest : string) :
  csv_record_count false (csv_writerow [a; b; c] +:+ rest) =
  S (csv_record_count false rest).
Proof.
  rewrite csv_writerow_three.
  repeat (rewrite append_assoc || rewrite append_cons).
  rewrite csv_record_count_field. cbn [csv_record_count].
  change (Ascii.eqb delimiter quotechar) with false.
  change (Ascii.eqb delimiter LF) with false. cbv iota. simpl andb. cbv iota.
  rewrite csv_record_count_field. cbn [csv_record_count].
  change (Ascii.eqb delimiter quotechar) with false.
  change (Ascii.eqb delimiter LF) with false. cbv iota. simpl andb. cbv iota.
  rewrite csv_record_count_field. reflexivity.
Qed.

Lemma csv_record_count_join_rows data :
  Forall has_columns data ->
  csv_record_count false (join_lines (csv_row <$> data)) = length data.
Proof.
  induction 1 as [|video data Hcols _ IH]; [done|].
  destruct (clean_video_Some video Hcols) as (title & url & views & Ht & Hu & Hv & _).
  rewrite fmap_cons. cbn [join_lines foldr length]. fold (join_lines (csv_row <$> data)).
  rewrite (csv_row_columns video title url views Ht Hu Hv).
  by rewrite csv_record_count_writerow, IH.
Qed.

Lemma csv_text_counts data :
  Forall has_columns data ->
  csv_record_count false (csv_text data) = 1 + length data /\
  line_count (csv_text data) = 1 + length data + embedded_line_feeds data.
Proof.
  intros Hall. unfold csv_text. split.
  - transitivity (S (csv_record_count false (join_lines (csv_row <$> data)))).
    + reflexivity.
    + by rewrite csv_record_count_join_rows.
  - unfold line_count. rewrite count_char_app.
    pose proof (line_count_join_rows data Hall) as Hrows. unfold line_count in Hrows.
    rewrite Hrows. change (count_char LF header_line) with 1. lia.
Qed.

(** C8, as stated, fails: a title that holds a line feed is written
    inside quotes with the line feed kept, so the file of this one record
    has three text lines, not two. *)
Lemma write_data_title_with_line_feed :
  ~ (forall (data : list (gmap string string)) (channel_name : string)
            (sys sys1 : Sys) (content : string),
        write_data data channel_name sys = Saved sys1 ->
        files sys1 !! (channel_name +:+ ".csv") = Some content ->
        line_count content = 1 + length data).
Proof.
  intros Hclaim.
  assert (Hcols : Forall has_columns sample_record_two_lines).
  { unfold sample_record_two_lines, has_columns, fieldnames.
    rewrite !Forall_cons, !Forall_nil.
    repeat split; apply is_Some_alt; vm_compute; exact I. }
  pose proof (Hclaim sample_record_two_lines "channel" empty_sys _
                     (csv_text sample_record_two_lines)
                     (write_data_saved _ _ _ Hcols)) as Hlines.
  simpl files in Hlines. rewrite lookup_insert_eq in Hlines.
  specialize (Hlines eq_refl). vm_compute in Hlines. discriminate Hlines.
Qed.

(** C8, amended: the file [write_data] leaves holds one header record and
    one record per input record, as a CSV reader counts them (a line feed
    outside quotes ends a record), for all field values; its number of
    text lines is [1 + N] plus the line feeds inside the written values,
    hence [1 + N] when no value holds a line feed. *)
Theorem write_data_rows (data : list (gmap string string)) (channel_name : string)
    (sys sys1 : Sys) (content : string) :
  write_data data channel_name sys = Saved sys1 ->
  files sys1 !! (channel_name +:+ ".csv") = Some content ->
  csv_record_count false content = 1 + length data /\
  line_count content = 1 + length data + embedded_line_feeds data /\
  (embedded_line_feeds data = 0 -> line_count content = 1 + length data).
Proof.
  intros Hrun Hfile. pose proof (write_data_Saved_columns _ _ _ _ Hrun) as Hall.
  rewrite (write_data_saved _ _ _ Hall) in Hrun. injection Hrun as <-.
  simpl files in Hfile. rewrite lookup_insert_eq in Hfile. injection Hfile as <-.
  destruct (csv_text_counts data Hall) as [Hrecords Hlines].
  split; [done|]. split; [done|]. intros Hnone. rewrite Hlines, Hnone. lia.
Qed.

(** C8, on the record whose title runs over two lines. *)
Lemma write_data_rows_witness :
  exists sys1 content,
    write_data sample_record_two_lines "Ben Heath" empty_sys = Saved sys1 /\
    files sys1 !! ("Ben Heath" +:+ ".csv") = Some content /\
    csv_record_count false content = 1 + length sample_record_two_lines /\
    line_count content =
      1 + length sample_record_two_lines + embedded_line_feeds sample_record_two_lines /\
    (embedded_line_feeds sample_record_two_lines = 0 ->
     line_count content = 1 + length sample_record_two_lines).
Proof.
  destruct (saved_true (write_data sample_record_two_lines "Ben Heath" empty_sys))
    as [sys1 Hrun]; [vm_compute; reflexivity|].
  pose proof (write_data_Saved_columns _ _ _ _ Hrun) as Hall.
  assert (Hfile : files sys1 !! ("Ben Heath" +:+ ".csv") =
                  Some (csv_text sample_record_two_lines)).
  { rewrite (write_data_saved _ _ _ Hall) in Hrun. injection Hrun as <-.
    simpl files. apply lookup_insert_eq. }
  exists sys1, (csv_text sample_record_two_lines).
  split; [exact Hrun|]. split; [exact Hfile|].
  apply (write_data_rows sample_record_two_lines "Ben Heath" empty_sys sys1 _ Hrun Hfile).
Defined.

(** ** The empty playlist *)



(** ** A whole run

    A playlist of 120 videos comes in three pages; the statistics of two
    videos are missing.  The run makes three listing and three statistics
    requests and returns 120 records, two of them with the fallback count;
    the file has 121 records and 121 lines. *)
Example end_to_end_scenario :
  match get_video_data 3 (sample_world 120) "PL" empty_log with
  | Returns out log =>
      match write_data out "Ben Heath" empty_sys with
      | Saved sys1 =>
          Some (length (listing_log log), length (stats_log log), length out,
                length (filter (fun record : gmap string string =>
                                  record !! "views" = Some "0") out),
                csv_record_count false <$> files sys1 !! "Ben Heath.csv",
                line_count <$> files sys1 !! "Ben Heath.csv",
                stdout sys1)
      | Failed _ => None
      end
  | _ => None
  end = Some (3, 3, 120, 2, Some 121, Some 121, ["✅ CSV file saved as Ben Heath.csv"]).
Proof. vm_compute. reflexivity. Qed.

(** * Further properties *)

(** ** The listing against any endpoint *)

(** A run of the pagination loop that returns: the responses it received,
    all but the last with a truthy token, the requests it sent for them,
    and the records it made of their items. *)
Lemma get_videos_loop_spec fuel w :
  forall params videos log out log',
    get_videos_loop fuel w params videos log = Returns out log' ->
    stats_log log' = stats_log log /\
    exists ds dlast,
      listing_log log' =
        listing_log log ++
        params :: ((fun d => set_pageToken params (nextPageToken d)) <$> ds) /\
      Forall (fun d => truthy (nextPageToken d) = true) ds /\
      truthy (nextPageToken dlast) = false /\
      (forall k d, (ds ++ [dlast]) !! k = Some d ->
                   listing_response w log' (length (listing_log log) + k) = Some d) /\
      out = videos ++ (video_of_item <$> concat (items <$> (ds ++ [dlast]))).
Proof.
  induction fuel as [|fuel IH]; intros params videos log out log'; [done|].
  simpl get_videos_loop. unfold bind, requests_get_playlistItems.
  destruct (playlistItems_api w (listing_log log) params) as [data|] eqn:Hdata; [|done].
  destruct (truthy (nextPageToken data)) eqn:Htok.
  - intros Hrest.
    apply IH in Hrest as (Hstats & ds & dlast & Hlog & Hds & Hlast & Hresp & ->).
    simpl in Hstats, Hlog, Hresp. split; [done|].
    assert (Hlog' : listing_log log' =
              listing_log log ++
              params :: ((fun d => set_pageToken params (nextPageToken d)) <$> data :: ds)).
    { rewrite Hlog, <- app_assoc. reflexivity. }
    exists (data :: ds), dlast. split; [done|]. split; [by constructor|]. split; [done|].
    split.
    + intros [|k] d Hd.
      * injection Hd as <-. unfold listing_response.
        rewrite Hlog', Nat.add_0_r, list_lookup_middle by done. simpl.
        by rewrite take_app_length.
      * rewrite <- (Hresp k d Hd). f_equal. rewrite length_app. simpl. lia.
    + rewrite extend_videos_app, <- app_assoc. f_equal.
      change (items <$> (data :: ds) ++ [dlast])
        with (items data :: (items <$> ds ++ [dlast])).
      change (concat (items data :: (items <$> ds ++ [dlast])))
        with (items data ++ concat (items <$> ds ++ [dlast])).
      by rewrite (fmap_app video_of_item).
  - unfold ret. intros [= <- <-]. split; [done|].
    exists [], data. split; [done|]. split; [done|]. split; [done|]. split.
    + intros [|k] d Hd; [|done]. injection Hd as <-. unfold listing_response.
      simpl. rewrite Nat.add_0_r, list_lookup_middle by done. simpl.
      by rewrite take_app_length.
    + rewrite extend_videos_app. simpl. by rewrite app_nil_r.
Qed.

(** X3: against any listing endpoint, a run of [get_videos] that returns
    has sent its first request without a cursor and each later request
    with the cursor of the response before it; every response but the
    last carried a truthy cursor, the last did not; and the records are
    made of the items of all the responses, in order. *)
Theorem get_videos_follows_cursors (fuel : nat) (w : World) (playlist_id : string)
    (videos : list (gmap string string)) (log : Log) :
  get_videos fuel w playlist_id empty_log = Returns videos log ->
  exists ds dlast,
    (forall k d, (ds ++ [dlast]) !! k = Some d -> listing_response w log k = Some d) /\
    length (listing_log log) = S (length ds) /\
    pl_pageToken <$> listing_log log = None :: (nextPageToken <$> ds) /\
    Forall (fun d => truthy (nextPageToken d) = true) ds /\
    truthy (nextPageToken dlast) = false /\
    videos = video_of_item <$> concat (items <$> (ds ++ [dlast])).
Proof.
  intros Hrun. apply get_videos_loop_spec in Hrun
    as (_ & ds & dlast & Hlog & Hds & Hlast & Hresp & ->).
  simpl in Hlog, Hresp. exists ds, dlast. split; [done|].
  rewrite Hlog. split; [simpl; by rewrite length_fmap|].
  split; [|done]. rewrite fmap_cons. simpl. f_equal.
  rewrite <- list_fmap_compose. done.
Qed.

(** X3, on the playlist of 120 videos. *)
Lemma get_videos_follows_cursors_witness :
  exists videos log ds dlast,
    get_videos 3 (sample_world 120) "PL" empty_log = Returns videos log /\
    (forall k d, (ds ++ [dlast]) !! k = Some d ->
                 listing_response (sample_world 120) log k = Some d) /\
    length (listing_log log) = S (length ds) /\
    pl_pageToken <$> listing_log log = None :: (nextPageToken <$> ds) /\
    Forall (fun d => truthy (nextPageToken d) = true) ds /\
    truthy (nextPageToken dlast) = false /\
    videos = video_of_item <$> concat (items <$> (ds ++ [dlast])).
Proof.
  assert (Hret : returned (get_videos 3 (sample_world 120) "PL" empty_log) = true)
    by (vm_compute; reflexivity).
  destruct (get_videos 3 (sample_world 120) "PL" empty_log) as [videos log| |] eqn:Hrun;
    [|discriminate Hret..].
  destruct (get_videos_follows_cursors 3 (sample_world 120) "PL" videos log Hrun)
    as (ds & dlast & Hrest).
  exists videos, log, ds, dlast. split; [reflexivity|exact Hrest].
Defined.

(** Whatever the outcome, the loop only appends listing requests, all of
    them the first one up to the cursor, and leaves the statistics log
    alone. *)
Lemma get_videos_loop_log fuel w :
  forall params videos log log',
    log_of (get_videos_loop fuel w params videos log) = Some log' ->
    stats_log log' = stats_log log /\
    exists qs,
      listing_log log' = listing_log log ++ qs /\ qs <> [] /\
      Forall (fun q => set_pageToken q None = set_pageToken params None) qs.
Proof.
  induction fuel as [|fuel IH]; intros params videos log log'; [done|].
  simpl get_videos_loop. unfold bind, requests_get_playlistItems.
  destruct (playlistItems_api w (listing_log log) params) as [data|].
  - destruct (truthy (nextPageToken data)).
    + intros Hrest. apply IH in Hrest as (Hstats & qs & Hlog & _ & Hqs).
      simpl in Hstats, Hlog. split; [done|]. exists (params :: qs).
      split; [by rewrite Hlog, <- app_assoc|]. split; [done|].
      constructor; [done|]. exact Hqs.
    + unfold ret. simpl. intros [= <-]. split; [done|].
      exists [params]. split; [done|]. split; [done|]. by constructor.
  - simpl. intros [= <-]. split; [done|].
    exists [params]. split; [done|]. split; [done|]. by constructor.
Qed.

(** X2: every request [get_videos] sends, whether the run returns or
    raises, asks for the snippet part of the same playlist with at most
    50 results per page and the configured key; only the cursor varies. *)
Theorem get_videos_requests_fixed (fuel : nat) (w : World) (playlist_id : string)
    (log : Log) :
  log_of (get_videos fuel w playlist_id empty_log) = Some log ->
  listing_log log <> [] /\
  stats_log log = [] /\
  Forall (fun q => pl_part q = "snippet" /\ pl_playlistId q = playlist_id /\
                   pl_maxResults q = 50 /\ pl_key q = API_KEY w) (listing_log log).
Proof.
  intros Hlog. apply get_videos_loop_log in Hlog as (Hstats & qs & Hlog & Hne & Hqs).
  simpl in Hstats, Hlog. rewrite Hlog. split; [done|]. split; [done|].
  eapply Forall_impl; [exact Hqs|]. intros q Hq. simpl in Hq.
  injection Hq as Hpart Hid Hmax Hkey. done.
Qed.

(** X2, on a listing that fails on its second request. *)
Lemma get_videos_requests_fixed_witness :
  exists log,
    log_of (get_videos 3 listing_down_world "PL" empty_log) = Some log /\
    listing_log log <> [] /\
    stats_log log = [] /\
    Forall (fun q => pl_part q = "snippet" /\ pl_playlistId q = "PL" /\
                     pl_maxResults q = 50 /\ pl_key q = API_KEY listing_down_world)
           (listing_log log).
Proof.
  eexists. split; [reflexivity|].
  apply (get_videos_requests_fixed 3 listing_down_world "PL"). reflexivity.
Defined.

Lemma dom_video_of_item item :
  dom (video_of_item item) = list_to_set (C := gset string) ["title"; "video_url"; "video_id"].
Proof.
  unfold video_of_item. rewrite !dom_insert_L, dom_singleton_L. simpl.
  by rewrite union_empty_r_L.
Qed.

(** X1: every record [get_videos] returns has exactly the keys [title],
    [video_url] and [video_id], and its URL is the watch URL of its
    identifier; it has no [views] yet. *)
Theorem get_videos_record_shape (fuel : nat) (w : World) (playlist_id : string)
    (videos : list (gmap string string)) (log : Log) :
  get_videos fuel w playlist_id empty_log = Returns videos log ->
  Forall (fun video : gmap string string =>
            dom video = list_to_set (C := gset string) ["title"; "video_url"; "video_id"] /\
            exists vid, video !! "video_id" = Some vid /\
                        video !! "video_url" = Some (VIDEO_BASE_URL +:+ vid))
         videos.
Proof.
  intros Hrun. apply get_videos_loop_spec in Hrun as (_ & ds & dlast & _ & _ & _ & _ & ->).
  simpl. apply Forall_fmap, Forall_forall. intros item _. simpl.
  split; [apply dom_video_of_item|].
  exists (snippet_videoId item). unfold video_of_item. by simplify_map_eq.
Qed.

(** X1, on the playlist of 120 videos. *)
Lemma get_videos_record_shape_witness :
  exists videos log,
    get_videos 3 (sample_world 120) "PL" empty_log = Returns videos log /\
    Forall (fun video : gmap string string =>
              dom video = list_to_set (C := gset string) ["title"; "video_url"; "video_id"] /\
              exists vid, video !! "video_id" = Some vid /\
                          video !! "video_url" = Some (VIDEO_BASE_URL +:+ vid))
           videos.
Proof.
  assert (Hret : returned (get_videos 3 (sample_world 120) "PL" empty_log) = true)
    by (vm_compute; reflexivity).
  destruct (get_videos 3 (sample_world 120) "PL" empty_log) as [videos log| |] eqn:Hrun;
    [|discriminate Hret..].
  exists videos, log. split; [reflexivity|].
  apply (get_videos_record_shape 3 (sample_world 120) "PL" videos log Hrun).
Defined.

Lemma get_videos_loop_endless fuel w :
  (forall history q, exists data,
      playlistItems_api w history q = Some data /\ truthy (nextPageToken data) = true) ->
  forall params videos log, get_videos_loop fuel w params videos log = OutOfFuel.
Proof.
  intros Hmore. induction fuel as [|fuel IH]; intros params videos log; [done|].
  simpl get_videos_loop. unfold bind, requests_get_playlistItems.
  destruct (Hmore (listing_log log) params) as (data & -> & ->). apply IH.
Qed.

(** X4: the pagination loop has no bound of its own: against an endpoint
    that answers every request with a truthy cursor it neither returns
    nor raises, whatever the fuel. *)
Theorem get_videos_never_stops (w : World) (playlist_id : string) :
  (forall history q, exists data,
      playlistItems_api w history q = Some data /\ truthy (nextPageToken data) = true) ->
  forall fuel log, get_videos fuel w playlist_id log = OutOfFuel.
Proof. intros Hmore fuel log. by apply get_videos_loop_endless. Qed.

(** X4, on the endpoint that never runs out of cursors. *)
Lemma get_videos_never_stops_witness :
  get_videos 25 endless_world "PL" empty_log = OutOfFuel.
Proof.
  apply (get_videos_never_stops endless_world "PL").
  intros history q. eexists. split; reflexivity.
Defined.

Lemma get_videos_loop_raises fuel w :
  forall params videos log log',
    get_videos_loop fuel w params videos log = Raises log' ->
    exists history q,
      listing_log log' = history ++ [q] /\ playlistItems_api w history q = None.
Proof.
  induction fuel as [|fuel IH]; intros params videos log log'; [done|].
  simpl get_videos_loop. unfold bind, requests_get_playlistItems.
  destruct (playlistItems_api w (listing_log log) params) as [data|] eqn:Hdata.
  - destruct (truthy (nextPageToken data)); [apply IH|done].
  - intros [= <-]. exists (listing_log log), params. done.
Qed.

(** X5: [get_videos] raises only when the listing endpoint fails, on the
    last request of the log; [get_video_data] then raises too, with the
    same log: no statistics request is made and nothing is returned. *)
Theorem listing_failure_aborts (fuel : nat) (w : World) (playlist_id : string)
    (log : Log) :
  get_videos fuel w playlist_id empty_log = Raises log ->
  (exists history q,
      listing_log log = history ++ [q] /\ playlistItems_api w history q = None) /\
  stats_log log = [] /\
  get_video_data fuel w playlist_id empty_log = Raises log.
Proof.
  intros Hrun. split; [by apply get_videos_loop_raises in Hrun|]. split.
  - assert (Hlog : log_of (get_videos fuel w playlist_id empty_log) = Some log)
      by (by rewrite Hrun).
    by apply get_videos_loop_log in Hlog as [Hstats _].
  - unfold get_video_data, bind. by rewrite Hrun.
Qed.

(** X5, on a listing that fails on its second request. *)
Lemma listing_failure_aborts_witness :
  exists log,
    get_videos 3 listing_down_world "PL" empty_log = Raises log /\
    (exists history q,
        listing_log log = history ++ [q] /\
        playlistItems_api listing_down_world history q = None) /\
    stats_log log = [] /\
    get_video_data 3 listing_down_world "PL" empty_log = Raises log.
Proof.
  assert (Hraised :
    match get_videos 3 listing_down_world "PL" empty_log with
    | Raises _ => true
    | _ => false
    end = true) by (vm_compute; reflexivity).
  destruct (get_videos 3 listing_down_world "PL" empty_log) as [|log|] eqn:Hrun;
    [discriminate Hraised| |discriminate Hraised].
  exists log. split; [reflexivity|].
  apply (listing_failure_aborts 3 listing_down_world "PL" log Hrun).
Defined.

(** ** The statistics call, again *)

(** X6: the mapping [get_view_counts] returns gives each identifier the
    view count of the last item of the response that carries it, and
    nothing to an identifier the response does not carry; the call sends
    one request, for the identifiers joined by commas. *)
Theorem get_view_counts_last_wins (w : World) (video_ids : list string) (log : Log)
    (stats : gmap string string) (log' : Log) :
  get_view_counts w video_ids log = Returns stats log' ->
  exists data,
    videos_api w (stats_log log)
      {| vp_part := "statistics"; vp_id := String.concat "," video_ids;
         vp_key := API_KEY w |} = Some data /\
    stats_log log' =
      stats_log log ++ [ {| vp_part := "statistics"; vp_id := String.concat "," video_ids;
                            vp_key := API_KEY w |} ] /\
    listing_log log' = listing_log log /\
    forall k, stats !! k =
              viewCount <$> last (filter (fun item => item_id item = k) (stat_items data)).
Proof.
  rewrite get_view_counts_returns. unfold stats_params.
  destruct (videos_api w (stats_log log) _) as [data|]; [|done].
  intros [= <- <-]. exists data. split; [done|]. split; [done|]. split; [done|].
  intros k. rewrite collect_stats_last.
  by destruct (last (filter (fun item => item_id item = k) (stat_items data))).
Qed.

(** X6, on a response that reports one video twice. *)
Lemma get_view_counts_last_wins_witness :
  exists stats log' data,
    get_view_counts twice_world ["id0"; "id1"; "id2"] empty_log = Returns stats log' /\
    videos_api twice_world (stats_log empty_log)
      {| vp_part := "statistics"; vp_id := String.concat "," ["id0"; "id1"; "id2"];
         vp_key := API_KEY twice_world |} = Some data /\
    stats_log log' =
      stats_log empty_log ++
      [ {| vp_part := "statistics"; vp_id := String.concat "," ["id0"; "id1"; "id2"];
           vp_key := API_KEY twice_world |} ] /\
    listing_log log' = listing_log empty_log /\
    forall k, stats !! k =
              viewCount <$> last (filter (fun item => item_id item = k) (stat_items data)).
Proof.
  assert (Hret : returned (get_view_counts twice_world ["id0"; "id1"; "id2"] empty_log) = true)
    by (vm_compute; reflexivity).
  destruct (get_view_counts twice_world ["id0"; "id1"; "id2"] empty_log)
    as [stats log'| |] eqn:Hrun; [|discriminate Hret..].
  destruct (get_view_counts_last_wins twice_world ["id0"; "id1"; "id2"] empty_log
              stats log' Hrun) as (data & Hrest).
  exists stats, log', data. split; [reflexivity|exact Hrest].
Defined.

(** ** The batches *)

Lemma mapM_omap {A B} (f : A -> option B) (l : list A) (k : list B) :
  mapM f l = Some k -> omap f l = k.
Proof.
  intros Hl. apply mapM_Some_1 in Hl.
  induction Hl as [|x y l k Hxy _ IH]; [done|].
  simpl. rewrite Hxy. simpl. f_equal. exact IH.
Qed.

Lemma length_omap_le {A B} (f : A -> option B) (l : list A) :
  length (omap f l) <= length l.
Proof.
  induction l as [|x l IH]; [done|].
  change (omap f (x :: l))
    with (match f x with Some y => y :: omap f l | None => omap f l end).
  destruct (f x); simpl length; lia.
Qed.

(** The statistics requests of a run of the batch loop that returns. *)
Lemma batch_loop_requests w videos starts :
  forall final_data log out log',
    batch_loop w videos starts final_data log = Returns out log' ->
    stats_log log' =
    stats_log log ++
    ((fun i => stats_params w (video_ids_of (slice videos i (i + batch_size)))) <$> starts).
Proof.
  induction starts as [|i starts IH]; intros final_data log out log'.
  - simpl. unfold ret. intros [= _ <-]. by rewrite app_nil_r.
  - simpl batch_loop. unfold bind at 1, lift at 1.
    destruct (mapM _ (slice videos i (i + batch_size))) as [video_ids|] eqn:Hids; [|done].
    apply mapM_omap in Hids. fold (video_ids_of (slice videos i (i + batch_size))) in Hids.
    unfold bind at 1. rewrite get_view_counts_returns.
    destruct (videos_api w (stats_log log) (stats_params w video_ids)) as [data|]; [|done].
    unfold bind at 1, lift at 1.
    destruct (merge_batch _ _ final_data) as [final_data'|]; [|done].
    intros Hrest. apply IH in Hrest. simpl in Hrest.
    rewrite Hrest, <- app_assoc, fmap_cons, Hids. done.
Qed.

(** Whatever the outcome, the batch loop leaves the listing log alone. *)
Lemma batch_loop_listing_log w videos starts :
  forall final_data log log',
    log_of (batch_loop w videos starts final_data log) = Some log' ->
    listing_log log' = listing_log log.
Proof.
  induction starts as [|i starts IH]; intros final_data log log'.
  - simpl. by intros [= <-].
  - simpl batch_loop. unfold bind at 1, lift at 1.
    destruct (mapM _ (slice videos i (i + batch_size))) as [video_ids|];
      [|simpl; by intros [= <-]].
    unfold bind at 1. rewrite get_view_counts_returns.
    destruct (videos_api w (stats_log log) (stats_params w video_ids)) as [data|];
      [|simpl; by intros [= <-]].
    unfold bind at 1, lift at 1.
    destruct (merge_batch _ _ final_data) as [final_data'|]; [|simpl; by intros [= <-]].
    intros Hrest. by apply IH in Hrest.
Qed.

(** X7: after the listing, [get_video_data] sends one statistics request
    per batch of fifty records, in listing order: [ceil (n / 50)] requests
    for [n] records, the k-th for the identifiers of the records
    [50 k], ..., [50 k + 49], never more than fifty; it sends no further
    listing request. *)
Theorem get_video_data_batches (fuel : nat) (w : World) (playlist_id : string)
    (videos out : list (gmap string string)) (log1 log2 : Log) :
  get_videos fuel w playlist_id empty_log = Returns videos log1 ->
  get_video_data fuel w playlist_id empty_log = Returns out log2 ->
  listing_log log2 = listing_log log1 /\
  stats_log log2 =
    (fun k => {| vp_part := "statistics";
                 vp_id := String.concat ","
                            (video_ids_of (take 50 (drop (k * 50) videos)));
                 vp_key := API_KEY w |})
      <$> seq 0 ((length videos + 49) / 50) /\
  forall k, length (video_ids_of (take 50 (drop (k * 50) videos))) <= 50.
Proof.
  intros Hlist Hrun. rewrite (get_video_data_unfold _ _ _ _ _ Hlist) in Hrun.
  split; [|split].
  - apply (batch_loop_listing_log w videos (range 0 (length videos) batch_size) []).
    by rewrite Hrun.
  - apply batch_loop_requests in Hrun. rewrite Hrun.
    apply get_videos_loop_stats_log in Hlist. rewrite Hlist. simpl.
    rewrite range_0, <- list_fmap_compose.
    replace ((length videos + batch_size - 1) / batch_size)
      with ((length videos + 49) / 50) by (unfold batch_size; lia).
    apply list_fmap_ext. intros _ k _. simpl. by rewrite slice_batch.
  - intros k. unfold video_ids_of.
    etransitivity; [apply length_omap_le|]. rewrite length_take. lia.
Qed.

(** X7, on the playlist of 120 videos. *)
Lemma get_video_data_batches_witness :
  exists videos out log1 log2,
    get_videos 3 (sample_world 120) "PL" empty_log = Returns videos log1 /\
    get_video_data 3 (sample_world 120) "PL" empty_log = Returns out log2 /\
    listing_log log2 = listing_log log1 /\
    stats_log log2 =
      (fun k => {| vp_part := "statistics";
                   vp_id := String.concat ","
                              (video_ids_of (take 50 (drop (k * 50) videos)));
                   vp_key := API_KEY (sample_world 120) |})
        <$> seq 0 ((length videos + 49) / 50) /\
    forall k, length (video_ids_of (take 50 (drop (k * 50) videos))) <= 50.
Proof.
  assert (Hret1 : returned (get_videos 3 (sample_world 120) "PL" empty_log) = true)
    by (vm_compute; reflexivity).
  assert (Hret2 : returned (get_video_data 3 (sample_world 120) "PL" empty_log) = true)
    by (vm_compute; reflexivity).
  destruct (get_videos 3 (sample_world 120) "PL" empty_log) as [videos log1| |] eqn:Hlist;
    [|discriminate Hret1..].
  destruct (get_video_data 3 (sample_world 120) "PL" empty_log) as [out log2| |] eqn:Hrun;
    [|discriminate Hret2..].
  exists videos, out, log1, log2. split; [reflexivity|]. split; [reflexivity|].
  apply (get_video_data_batches 3 (sample_world 120) "PL" videos out log1 log2 Hlist Hrun).
Defined.

(** A run of the batch loop over records that all have an identifier
    raises only at a statistics request the endpoint does not answer. *)
Lemma batch_loop_raises w videos starts :
  Forall (fun video : gmap string string => is_Some (video !! "video_id")) videos ->
  forall final_data log log',
    batch_loop w videos starts final_data log = Raises log' ->
    exists history q, stats_log log' = history ++ [q] /\ videos_api w history q = None.
Proof.
  intros Hids. induction starts as [|i starts IH]; intros final_data log log'; [done|].
  simpl batch_loop. unfold bind at 1, lift at 1.
  assert (Hbatch : Forall (fun video : gmap string string => is_Some (video !! "video_id"))
                          (slice videos i (i + batch_size))).
  { unfold slice. by apply Forall_take, Forall_drop. }
  destruct (mapM_is_Some_2 (fun vid : gmap string string => vid !! "video_id") _ Hbatch)
    as [video_ids ->].
  unfold bind at 1. rewrite get_view_counts_returns.
  destruct (videos_api w (stats_log log) (stats_params w video_ids)) as [data|] eqn:Hdata.
  - unfold bind at 1, lift at 1.
    destruct (merge_batch_total (collect_stats ∅ (stat_items data)) _ final_data Hbatch)
      as [final_data' ->].
    apply IH.
  - intros [= <-]. exists (stats_log log), (stats_params w video_ids). done.
Qed.

(** X8: once the listing has returned, [get_video_data] raises only when
    the statistics endpoint fails, and stops there: the failing request is
    the last one of the log, and no listing request follows the listing. *)
Theorem stats_failure_aborts (fuel : nat) (w : World) (playlist_id : string)
    (videos : list (gmap string string)) (log1 log2 : Log) :
  get_videos fuel w playlist_id empty_log = Returns videos log1 ->
  get_video_data fuel w playlist_id empty_log = Raises log2 ->
  listing_log log2 = listing_log log1 /\
  exists history q, stats_log log2 = history ++ [q] /\ videos_api w history q = None.
Proof.
  intros Hlist Hrun. rewrite (get_video_data_unfold _ _ _ _ _ Hlist) in Hrun. split.
  - apply (batch_loop_listing_log w videos (range 0 (length videos) batch_size) []).
    by rewrite Hrun.
  - eapply batch_loop_raises; [|exact Hrun].
    by apply (get_videos_loop_ids _ _ _ _ _ _ _ (Forall_nil_2 _) Hlist).
Qed.

(** X8, on a platform whose statistics endpoint is down. *)
Lemma stats_failure_aborts_witness :
  exists videos log1 log2,
    get_videos 3 stats_down_world "PL" empty_log = Returns videos log1 /\
    get_video_data 3 stats_down_world "PL" empty_log = Raises log2 /\
    listing_log log2 = listing_log log1 /\
    exists history q,
      stats_log log2 = history ++ [q] /\ videos_api stats_down_world history q = None.
Proof.
  assert (Hret : returned (get_videos 3 stats_down_world "PL" empty_log) = true)
    by (vm_compute; reflexivity).
  assert (Hraised :
    match get_video_data 3 stats_down_world "PL" empty_log with
    | Raises _ => true
    | _ => false
    end = true) by (vm_compute; reflexivity).
  destruct (get_videos 3 stats_down_world "PL" empty_log) as [videos log1| |] eqn:Hlist;
    [|discriminate Hret..].
  destruct (get_video_data 3 stats_down_world "PL" empty_log) as [|log2|] eqn:Hrun;
    [discriminate Hraised| |discriminate Hraised].
  exists videos, log1, log2. split; [reflexivity|]. split; [reflexivity|].
  apply (stats_failure_aborts 3 stats_down_world "PL" videos log1 log2 Hlist Hrun).
Defined.

(** ** From the merge to the writer *)

Lemma has_columns_with_views view_counts item :
  has_columns (with_views view_counts (video_of_item item)).
Proof.
  unfold has_columns, fieldnames, with_views, video_of_item.
  rewrite !Forall_cons, Forall_nil. repeat split; simplify_map_eq; eauto.
Qed.

Lemma get_videos_loop_items fuel w :
  forall params videos log out log',
    Forall (fun video => exists item, video = video_of_item item) videos ->
    get_videos_loop fuel w params videos log = Returns out log' ->
    Forall (fun video => exists item, video = video_of_item item) out.
Proof.
  intros params videos log out log' Hvideos Hrun.
  apply get_videos_loop_spec in Hrun as (_ & ds & dlast & _ & _ & _ & _ & ->).
  apply Forall_app. split; [done|]. apply Forall_fmap, Forall_forall.
  intros item _. simpl. eauto.
Qed.

Lemma batches_have_columns videos starts ms :
  Forall (fun video => exists item, video = video_of_item item) videos ->
  Forall has_columns
    (concat (zip_with (fun i m => with_views m <$> slice videos i (i + batch_size)) starts ms)).
Proof.
  intros Hvideos. revert ms. induction starts as [|i starts IH]; intros [|m ms]; try done.
  simpl. apply Forall_app. split; [|apply IH].
  apply Forall_fmap. unfold slice. apply Forall_take, Forall_drop.
  eapply Forall_impl; [exact Hvideos|]. intros video [item ->]. simpl.
  apply has_columns_with_views.
Qed.

(** The records [get_video_data] returns have the three columns, from
    whatever log it starts. *)
Lemma get_video_data_columns fuel w playlist_id log out log' :
  get_video_data fuel w playlist_id log = Returns out log' ->
  Forall has_columns out.
Proof.
  unfold get_video_data, bind.
  destruct (get_videos fuel w playlist_id log) as [videos log1| |] eqn:Hlist; [|done..].
  intros Hrun. apply batch_loop_spec in Hrun as (_ & qs & ms & _ & _ & _ & _ & ->).
  rewrite app_nil_l. apply batches_have_columns.
  by apply (get_videos_loop_items _ _ _ _ _ _ _ (Forall_nil_2 _) Hlist).
Qed.

(** X9: on what [get_video_data] returns, [write_data] raises no
    [KeyError] and no error of the writer: only the operating system can
    stop it.  A refused open leaves everything as it was; a write that
    breaks off leaves the file with what got through; otherwise the file
    [<channel_name>.csv] holds the header and one CSV record per video,
    and the run completes with the confirmation printed, or raises with
    nothing printed when the line cannot be printed. *)
Theorem write_data_after_get_video_data (env : Env) (fuel : nat) (w : World)
    (playlist_id : string) (log : Log) (out : list (gmap string string)) (log' : Log)
    (channel_name : string) (sys : Sys) :
  get_video_data fuel w playlist_id log = Returns out log' ->
  write_data_in env out channel_name sys =
    (if has_nul (channel_name +:+ ".csv") || negb (may_open env (channel_name +:+ ".csv"))
     then Failed sys
     else
       match write_fault env (channel_name +:+ ".csv") (csv_text out) with
       | Some partial => Failed (set_file (channel_name +:+ ".csv") partial sys)
       | None =>
           if may_print env ("✅ CSV file saved as " +:+ channel_name +:+ ".csv")
           then Saved (print ("✅ CSV file saved as " +:+ channel_name +:+ ".csv")
                             (set_file (channel_name +:+ ".csv") (csv_text out) sys))
           else Failed (set_file (channel_name +:+ ".csv") (csv_text out) sys)
       end) /\
  csv_record_count false (csv_text out) = 1 + length out.
Proof.
  intros Hrun. apply get_video_data_columns in Hrun. split.
  - by apply write_data_in_cases.
  - by apply csv_text_counts.
Qed.

(** X9, on the playlist of 120 videos, with a standard output that takes
    ASCII only. *)
Lemma write_data_after_get_video_data_witness :
  exists out log',
    get_video_data 3 (sample_world 120) "PL" empty_log = Returns out log' /\
    write_data_in ascii_stdout_env out "Ben Heath" empty_sys =
      (if has_nul ("Ben Heath" +:+ ".csv")
          || negb (may_open ascii_stdout_env ("Ben Heath" +:+ ".csv"))
       then Failed empty_sys
       else
         match write_fault ascii_stdout_env ("Ben Heath" +:+ ".csv") (csv_text out) with
         | Some partial => Failed (set_file ("Ben Heath" +:+ ".csv") partial empty_sys)
         | None =>
             if may_print ascii_stdout_env ("✅ CSV file saved as " +:+ "Ben Heath" +:+ ".csv")
             then Saved (print ("✅ CSV file saved as " +:+ "Ben Heath" +:+ ".csv")
                               (set_file ("Ben Heath" +:+ ".csv") (csv_text out) empty_sys))
             else Failed (set_file ("Ben Heath" +:+ ".csv") (csv_text out) empty_sys)
         end) /\
    csv_record_count false (csv_text out) = 1 + length out.
Proof.
  assert (Hret : returned (get_video_data 3 (sample_world 120) "PL" empty_log) = true)
    by (vm_compute; reflexivity).
  destruct (get_video_data 3 (sample_world 120) "PL" empty_log) as [out log'| |] eqn:Hrun;
    [|discriminate Hret..].
  exists out, log'. split; [reflexivity|].
  apply (write_data_after_get_video_data ascii_stdout_env 3 (sample_world 120) "PL"
           empty_log out log' "Ben Heath" empty_sys Hrun).
Defined.

(** ** The writer, again *)

(** X10: when some record lacks one of the three columns, [write_data]
    fails before it opens the file: the file system and the output are
    left exactly as they were. *)
Theorem write_data_missing_column (data : list (gmap string string))
    (channel_name : string) (sys : Sys) :
  ~ Forall has_columns data ->
  write_data data channel_name sys = Failed sys.
Proof.
  intros Hno. unfold write_data.
  assert (Hnone : mapM clean_video data = None).
  { apply mapM_None_2.
    apply (not_Forall_Exists (fun video : gmap string string =>
                                Forall (fun key => is_Some (video !! key)) fieldnames)) in Hno.
    eapply Exists_impl; [exact Hno|]. intros video Hvideo. simpl.
    by apply clean_video_None. }
  by rewrite Hnone.
Qed.

(** X10, on a record that was never merged. *)
Lemma write_data_missing_column_witness :
  write_data sample_records_unmerged "Ben Heath" empty_sys = Failed empty_sys.
Proof.
  apply (write_data_missing_column sample_records_unmerged "Ben Heath" empty_sys).
  unfold sample_records_unmerged, has_columns, fieldnames.
  rewrite !Forall_cons, !Forall_nil. intros ((_ & _ & Hviews & _) & _).
  apply is_Some_alt in Hviews. vm_compute in Hviews. exact Hviews.
Defined.

Lemma clean_video_columns video video' :
  columns video = columns video' -> clean_video video = clean_video video'.
Proof.
  unfold columns, clean_video, fieldnames. simpl.
  intros [= Htitle Hurl Hviews]. by rewrite Htitle, Hurl, Hviews.
Qed.

(** X11: what [write_data] does depends on the title, the URL and the
    views of each record only: records that agree on these three, whatever
    other keys they carry, give the same file and the same output. *)
Theorem write_data_projects (data data' : list (gmap string string))
    (channel_name : string) (sys : Sys) :
  columns <$> data = columns <$> data' ->
  write_data data channel_name sys = write_data data' channel_name sys.
Proof.
  intros Hcols. unfold write_data.
  assert (Hclean : mapM clean_video data = mapM clean_video data').
  { apply Forall2_mapM_ext. revert data' Hcols.
    induction data as [|video data IH]; intros [|video' data'] Hcols; try done.
    rewrite !fmap_cons in Hcols.
    assert (Hvideo : columns video = columns video') by congruence.
    assert (Hrest : columns <$> data = columns <$> data') by congruence.
    constructor; [by apply clean_video_columns|]. by apply IH. }
  by rewrite Hclean.
Qed.

(** X11, on the sample records with and without their identifiers. *)
Lemma write_data_projects_witness :
  write_data sample_records "Ben Heath" empty_sys =
  write_data (delete "video_id" <$> sample_records) "Ben Heath" empty_sys.
Proof.
  apply (write_data_projects sample_records (delete "video_id" <$> sample_records)
           "Ben Heath" empty_sys).
  vm_compute. reflexivity.
Defined.

Lemma csv_field_plain (s : string) :
  string_exists csv_special s = false -> csv_field s = s.
Proof. intros Hplain. unfold csv_field. by rewrite Hplain. Qed.

Lemma csv_row_plain (video : gmap string string) :
  has_columns video -> plain_values video -> csv_row video = plain_row video.
Proof.
  intros Hcols Hplain.
  destruct (clean_video_Some video Hcols) as (title & url & views & Ht & Hu & Hv & _).
  unfold plain_values, fieldnames in Hplain. rewrite !Forall_cons in Hplain.
  rewrite Ht, Hu, Hv in Hplain. simpl in Hplain. destruct Hplain as (Hpt & Hpu & Hpv & _).
  rewrite (csv_row_columns video title url views Ht Hu Hv), csv_writerow_three.
  rewrite !csv_field_plain by done. unfold plain_row. rewrite Ht, Hu, Hv. reflexivity.
Qed.

(** X12: when no title, URL or views value holds a comma, a quote, a
    carriage return or a line feed, the file [write_data] leaves is the
    header row followed, for each record in order, by its three values
    verbatim, separated by commas and ended by CR LF. *)
Theorem write_data_plain (data : list (gmap string string)) (channel_name : string)
    (sys sys1 : Sys) :
  write_data data channel_name sys = Saved sys1 ->
  Forall plain_values data ->
  files sys1 !! (channel_name +:+ ".csv") =
  Some ("title,video_url,views" +:+ lineterminator +:+ join_lines (plain_row <$> data)).
Proof.
  intros Hrun Hplain. pose proof (write_data_Saved_columns _ _ _ _ Hrun) as Hall.
  rewrite (write_data_saved _ _ _ Hall) in Hrun. injection Hrun as <-.
  simpl files. rewrite lookup_insert_eq. f_equal.
  unfold csv_text, header_line. rewrite append_assoc. do 2 f_equal.
  f_equal. apply list_fmap_ext. intros i video Hvideo.
  rewrite Forall_lookup in Hall, Hplain.
  apply csv_row_plain; [by eapply Hall|by eapply Hplain].
Qed.

(** X12, on two records without special characters. *)
Lemma write_data_plain_witness :
  exists sys1,
    write_data (<["views" := "7"]> <$> sample_records_unmerged) "Ben Heath" empty_sys
      = Saved sys1 /\
    files sys1 !! ("Ben Heath" +:+ ".csv") =
    Some ("title,video_url,views" +:+ lineterminator +:+
          join_lines (plain_row <$> (<["views" := "7"]> <$> sample_records_unmerged))).
Proof.
  destruct (saved_true (write_data (<["views" := "7"]> <$> sample_records_unmerged)
                                   "Ben Heath" empty_sys))
    as [sys1 Hrun]; [vm_compute; reflexivity|].
  exists sys1. split; [exact Hrun|].
  apply (write_data_plain _ "Ben Heath" empty_sys sys1 Hrun).
  unfold sample_records_unmerged, plain_values, fieldnames.
  rewrite !fmap_cons, !Forall_cons, !Forall_nil. repeat split; vm_compute; reflexivity.
Defined.

(** ** Columns of the written text *)

Lemma csv_delimiter_count_plain (s rest : string) in_quotes :
  string_exists csv_special s = false ->
  csv_delimiter_count in_quotes (s +:+ rest) = csv_delimiter_count in_quotes rest.
Proof.
  induction s as [|c s IH]; [done|].
  cbn [string_exists]. intros [Hc Hs]%orb_false_elim.
  rewrite append_cons. cbn [csv_delimiter_count].
  unfold csv_special in Hc.
  apply orb_false_elim in Hc as [[Hdelim Hquote]%orb_false_elim _].
  rewrite Hquote, Hdelim. simpl. by apply IH.
Qed.

Lemma csv_delimiter_count_quoted (s rest : string) :
  csv_delimiter_count true (csv_double_quotes s +:+ rest) = csv_delimiter_count true rest.
Proof.
  induction s as [|c s IH]; [done|].
  cbn [csv_double_quotes].
  destruct (Ascii.eqb c quotechar) eqn:Hquote.
  - rewrite !append_cons. cbn [csv_delimiter_count].
    change (Ascii.eqb quotechar quotechar) with true. cbv iota. exact IH.
  - rewrite append_cons. cbn [csv_delimiter_count]. rewrite Hquote.
    rewrite andb_false_r. exact IH.
Qed.

Lemma csv_delimiter_count_field (s rest : string) :
  csv_delimiter_count false (csv_field s +:+ rest) = csv_delimiter_count false rest.
Proof.
  unfold csv_field. destruct (string_exists csv_special s) eqn:Hspecial.
  - rewrite append_cons, append_assoc, append_cons, append_empty_l.
    cbn [csv_delimiter_count]. change (Ascii.eqb quotechar quotechar) with true. cbv iota.
    change (negb false) with true. rewrite csv_delimiter_count_quoted.
    cbn [csv_delimiter_count]. change (Ascii.eqb quotechar quotechar) with true. done.
  - by apply csv_delimiter_count_plain.
Qed.

Lemma csv_delimiter_count_writerow (a b c rest : string) :
  csv_delimiter_count false (csv_writerow [a; b; c] +:+ rest) =
  2 + csv_delimiter_count false rest.
Proof.
  rewrite csv_writerow_three.
  repeat (rewrite append_assoc || rewrite append_cons).
  rewrite csv_delimiter_count_field. cbn [csv_delimiter_count].
  change (Ascii.eqb delimiter quotechar) with false.
  change (Ascii.eqb delimiter delimiter) with true. cbv iota. simpl andb. cbv iota.
  rewrite csv_delimiter_count_field. cbn [csv_delimiter_count].
  change (Ascii.eqb delimiter quotechar) with false.
  change (Ascii.eqb delimiter delimiter) with true. cbv iota. simpl andb. cbv iota.
  rewrite csv_delimiter_count_field. reflexivity.
Qed.

(** X13: whatever the values hold, commas and quotes included, a reader
    of the written file finds two field separators in the row of every
    record, and [2 * (1 + N)] of them in the file of [N] records: every
    row has three columns. *)
Theorem write_data_three_columns (data : list (gmap string string))
    (channel_name : string) (sys sys1 : Sys) (content : string) :
  write_data data channel_name sys = Saved sys1 ->
  files sys1 !! (channel_name +:+ ".csv") = Some content ->
  Forall (fun video => csv_delimiter_count false (csv_row video) = 2) data /\
  csv_delimiter_count false content = 2 * (1 + length data).
Proof.
  intros Hrun Hfile. pose proof (write_data_Saved_columns _ _ _ _ Hrun) as Hall.
  rewrite (write_data_saved _ _ _ Hall) in Hrun. injection Hrun as <-.
  simpl files in Hfile. rewrite lookup_insert_eq in Hfile. injection Hfile as <-.
  split.
  - eapply Forall_impl; [exact Hall|]. intros video Hcols. simpl.
    destruct (clean_video_Some video Hcols) as (title & url & views & Ht & Hu & Hv & _).
    rewrite (csv_row_columns video title url views Ht Hu Hv).
    rewrite <- (append_empty_r (csv_writerow [title; url; views])).
    by rewrite csv_delimiter_count_writerow.
  - unfold csv_text.
    transitivity (2 + csv_delimiter_count false (join_lines (csv_row <$> data)));
      [reflexivity|].
    assert (Hrows : csv_delimiter_count false (join_lines (csv_row <$> data))
                    = 2 * length data).
    { clear sys. induction Hall as [|video data Hcols _ IH]; [done|].
      destruct (clean_video_Some video Hcols) as (title & url & views & Ht & Hu & Hv & _).
      rewrite fmap_cons. cbn [join_lines foldr length].
      fold (join_lines (csv_row <$> data)).
      rewrite (csv_row_columns video title url views Ht Hu Hv).
      rewrite csv_delimiter_count_writerow, IH. lia. }
    rewrite Hrows. lia.
Qed.

(** X13, on the sample records, whose first title holds a comma. *)
Lemma write_data_three_columns_witness :
  exists sys1,
    write_data sample_records "Ben Heath" empty_sys = Saved sys1 /\
    files sys1 !! ("Ben Heath" +:+ ".csv") = Some (csv_text sample_records) /\
    Forall (fun video => csv_delimiter_count false (csv_row video) = 2) sample_records /\
    csv_delimiter_count false (csv_text sample_records) = 2 * (1 + length sample_records).
Proof.
  destruct (saved_true (write_data sample_records "Ben Heath" empty_sys))
    as [sys1 Hrun]; [vm_compute; reflexivity|].
  pose proof (write_data_Saved_columns _ _ _ _ Hrun) as Hall.
  assert (Hfile : files sys1 !! ("Ben Heath" +:+ ".csv") = Some (csv_text sample_records)).
  { rewrite (write_data_saved _ _ _ Hall) in Hrun. injection Hrun as <-.
    simpl files. apply lookup_insert_eq. }
  exists sys1. split; [exact Hrun|]. split; [exact Hfile|].
  apply (write_data_three_columns sample_records "Ben Heath" empty_sys sys1 _ Hrun Hfile).
Defined.

(** ** The entry point *)

Lemma write_data_after_fetch fuel w playlist log video_data log' channel_name sys :
  get_video_data fuel w playlist log = Returns video_data log' ->
  write_data video_data channel_name sys =
  Saved (print (saved_message channel_name)
               (set_file (channel_name +:+ ".csv") (csv_text video_data) sys)).
Proof. intros Hrun. apply write_data_saved. by apply get_video_data_columns in Hrun. Qed.

(** A run over a list of channels that finishes. *)
Lemma process_channels_finished fuel w chans :
  forall log sys log' sys',
    process_channels fuel w chans log sys = Finished log' sys' ->
    stdout sys' = stdout sys ++ saved_messages chans /\
    (forall name, name ∉ (fun chan : string * string => chan.2 +:+ ".csv") <$> chans ->
                  files sys' !! name = files sys !! name) /\
    Forall (fun chan : string * string =>
              exists rest, files sys' !! (chan.2 +:+ ".csv") = Some (header_line +:+ rest))
           chans.
Proof.
  induction chans as [|[playlist channel_name] chans IH]; intros log sys log' sys'.
  - simpl. intros [= _ <-]. rewrite app_nil_r. done.
  - simpl process_channels.
    destruct (get_video_data fuel w playlist log) as [video_data log1| |] eqn:Hfetch;
      [|done..].
    rewrite (write_data_after_fetch _ _ _ _ _ _ channel_name sys Hfetch).
    intros Hrest. apply IH in Hrest as (Hout & Hother & Hfiles).
    simpl in Hout, Hother. split; [|split].
    + rewrite Hout, <- app_assoc. done.
    + intros name Hname. rewrite fmap_cons in Hname.
      apply not_elem_of_cons in Hname as [Hne Hname].
      rewrite (Hother name Hname). by apply lookup_insert_ne.
    + constructor; [|done]. simpl.
      destruct (decide (channel_name +:+ ".csv" ∈
                        (fun chan : string * string => chan.2 +:+ ".csv") <$> chans))
        as [Hin|Hout'].
      * apply list_elem_of_fmap in Hin as (chan & Heq & Hchan).
        rewrite Forall_forall in Hfiles. rewrite Heq. by apply Hfiles.
      * rewrite (Hother _ Hout'), lookup_insert_eq. unfold csv_text. eauto.
Qed.

(** X14: when the script runs to its end, it has printed the three
    confirmation lines in the order of the channel list, each channel's
    file exists and starts with the header row, and no other file has
    changed. *)
Theorem main_finished (fuel : nat) (w : World) (sys : Sys) (log' : Log) (sys' : Sys) :
  main fuel w sys = Finished log' sys' ->
  stdout sys' =
    stdout sys ++ [ "✅ CSV file saved as Ben Heath.csv";
                    "✅ CSV file saved as Dara Denney.csv";
                    "✅ CSV file saved as Professor Charley T.csv" ] /\
  (forall name,
      name ∉ ["Ben Heath.csv"; "Dara Denney.csv"; "Professor Charley T.csv"] ->
      files sys' !! name = files sys !! name) /\
  Forall (fun name => exists rest,
            files sys' !! name = Some ("title,video_url,views" +:+ lineterminator +:+ rest))
         ["Ben Heath.csv"; "Dara Denney.csv"; "Professor Charley T.csv"].
Proof.
  intros Hrun. apply process_channels_finished in Hrun as (Hout & Hother & Hfiles).
  split; [exact Hout|]. split; [exact Hother|].
  unfold channels in Hfiles. rewrite !Forall_cons in Hfiles.
  destruct Hfiles as ([r1 H1] & [r2 H2] & [r3 H3] & _).
  unfold header_line in *. rewrite append_assoc in H1, H2, H3.
  repeat constructor; eauto.
Qed.

(** X14, on a platform that answers every request. *)
Lemma main_finished_witness :
  exists log' sys',
    main 1 three_channels_world empty_sys = Finished log' sys' /\
    stdout sys' =
      stdout empty_sys ++ [ "✅ CSV file saved as Ben Heath.csv";
                            "✅ CSV file saved as Dara Denney.csv";
                            "✅ CSV file saved as Professor Charley T.csv" ] /\
    (forall name,
        name ∉ ["Ben Heath.csv"; "Dara Denney.csv"; "Professor Charley T.csv"] ->
        files sys' !! name = files empty_sys !! name) /\
    Forall (fun name => exists rest,
              files sys' !! name = Some ("title,video_url,views" +:+ lineterminator +:+ rest))
           ["Ben Heath.csv"; "Dara Denney.csv"; "Professor Charley T.csv"].
Proof.
  assert (Hfinished :
    match main 1 three_channels_world empty_sys with
    | Finished _ _ => true
    | _ => false
    end = true) by (vm_compute; reflexivity).
  destruct (main 1 three_channels_world empty_sys) as [log' sys'| |] eqn:Hrun;
    [|discriminate Hfinished..].
  exists log', sys'. split; [reflexivity|].
  apply (main_finished 1 three_channels_world empty_sys log' sys' Hrun).
Defined.

(** A run that finishes under some operating system is the run of
    [process_channels]. *)
Lemma process_channels_in_finished env fuel w chans :
  forall log sys log' sys',
    process_channels_in env fuel w chans log sys = Finished log' sys' ->
    process_channels fuel w chans log sys = Finished log' sys'.
Proof.
  induction chans as [|[playlist channel_name] chans IH]; intros log sys log' sys'; [done|].
  simpl.
  destruct (get_video_data fuel w playlist log) as [video_data log1| |]; [|done..].
  destruct (write_data_in env video_data channel_name sys) as [sys1|sys1] eqn:Hwrite; [|done].
  rewrite (write_data_in_refines _ _ _ _ _ Hwrite). apply IH.
Qed.

(** A run over a list of channels that is cut short by an exception: the
    channels before the failing one were processed to the end, and the
    failing one either could not be fetched or could not be written. *)
Lemma process_channels_in_aborted env fuel w chans :
  forall log sys log' sys',
    process_channels_in env fuel w chans log sys = Aborted log' sys' ->
    exists done playlist channel_name rest log0 sys0,
      chans = done ++ (playlist, channel_name) :: rest /\
      process_channels_in env fuel w done log sys = Finished log0 sys0 /\
      ((get_video_data fuel w playlist log0 = Raises log' /\ sys' = sys0) \/
       (exists video_data,
           get_video_data fuel w playlist log0 = Returns video_data log' /\
           write_data_in env video_data channel_name sys0 = Failed sys')).
Proof.
  induction chans as [|[playlist channel_name] chans IH]; intros log sys log' sys'; [done|].
  simpl process_channels_in.
  destruct (get_video_data fuel w playlist log) as [video_data log1|log1|] eqn:Hfetch;
    [| |done].
  - destruct (write_data_in env video_data channel_name sys) as [sys1|sys1] eqn:Hwrite.
    + intros Hrest.
      apply IH in Hrest
        as (done & playlist' & channel' & rest & log0 & sys0 & -> & Hdone & Hcause).
      exists ((playlist, channel_name) :: done), playlist', channel', rest, log0, sys0.
      split; [done|]. split; [|done].
      simpl. by rewrite Hfetch, Hwrite.
    + intros [= <- <-]. exists [], playlist, channel_name, chans, log, sys.
      split; [done|]. split; [done|]. right. eauto.
  - intros [= <- <-]. exists [], playlist, channel_name, chans, log, sys.
    split; [done|]. split; [done|]. by left.
Qed.

(** X15: when the script is cut short, the channels before the failing
    one were processed to the end, with their confirmations printed in
    order and nothing else printed; the failing channel either could not
    be fetched, and then nothing more changed, or its write was stopped by
    the operating system (at open, during the write, or at print), never
    by a missing column; no file changed but those of the channels before
    and possibly that of the failing channel, and the channels after it
    were not touched. *)
Theorem main_aborted (env : Env) (fuel : nat) (w : World) (sys : Sys)
    (log' : Log) (sys' : Sys) :
  main_in env fuel w sys = Aborted log' sys' ->
  exists done playlist channel_name rest log0 sys0,
    channels = done ++ (playlist, channel_name) :: rest /\
    process_channels_in env fuel w done empty_log sys = Finished log0 sys0 /\
    stdout sys' = stdout sys ++ saved_messages done /\
    (forall name,
        name ∉ (fun chan : string * string => chan.2 +:+ ".csv") <$> done ->
        name <> channel_name +:+ ".csv" ->
        files sys' !! name = files sys !! name) /\
    ((get_video_data fuel w playlist log0 = Raises log' /\ sys' = sys0) \/
     (exists video_data,
         get_video_data fuel w playlist log0 = Returns video_data log' /\
         write_data_in env video_data channel_name sys0 = Failed sys' /\
         refused env (channel_name +:+ ".csv") (csv_text video_data)
                 (saved_message channel_name))).
Proof.
  intros Hrun. apply process_channels_in_aborted in Hrun
    as (done & playlist & channel_name & rest & log0 & sys0 & Hchans & Hdone & Hcause).
  exists done, playlist, channel_name, rest, log0, sys0.
  split; [done|]. split; [done|].
  pose proof (process_channels_in_finished _ _ _ _ _ _ _ _ Hdone) as Hideal.
  apply process_channels_finished in Hideal as (Hout & Hother & _).
  destruct Hcause as [[Hfetch ->] | (video_data & Hfetch & Hwrite)].
  - split; [done|]. split; [|by left]. intros name Hname _. by apply Hother.
  - pose proof (get_video_data_columns _ _ _ _ _ _ Hfetch) as Hcols.
    destruct (write_data_in_failed _ _ _ _ _ Hcols Hwrite) as (Hrefused & Hout' & Hother').
    split; [by rewrite Hout'|]. split.
    + intros name Hname Hne. rewrite (Hother' name Hne). by apply Hother.
    + right. exists video_data. done.
Qed.

(** X15, on a platform that answers every request and a standard output
    that takes ASCII only: the first confirmation cannot be printed. *)
Lemma main_aborted_witness :
  exists log' sys' done playlist channel_name rest log0 sys0,
    main_in ascii_stdout_env 1 three_channels_world empty_sys = Aborted log' sys' /\
    channels = done ++ (playlist, channel_name) :: rest /\
    process_channels_in ascii_stdout_env 1 three_channels_world done empty_log empty_sys
      = Finished log0 sys0 /\
    stdout sys' = stdout empty_sys ++ saved_messages done /\
    (forall name,
        name ∉ (fun chan : string * string => chan.2 +:+ ".csv") <$> done ->
        name <> channel_name +:+ ".csv" ->
        files sys' !! name = files empty_sys !! name) /\
    ((get_video_data 1 three_channels_world playlist log0 = Raises log' /\ sys' = sys0) \/
     (exists video_data,
         get_video_data 1 three_channels_world playlist log0 = Returns video_data log' /\
         write_data_in ascii_stdout_env video_data channel_name sys0 = Failed sys' /\
         refused ascii_stdout_env (channel_name +:+ ".csv") (csv_text video_data)
                 (saved_message channel_name))).
Proof.
  assert (Haborted :
    match main_in ascii_stdout_env 1 three_channels_world empty_sys with
    | Aborted _ _ => true
    | _ => false
    end = true) by (vm_compute; reflexivity).
  destruct (main_in ascii_stdout_env 1 three_channels_world empty_sys)
    as [|log' sys'|] eqn:Hrun; [discriminate Haborted| |discriminate Haborted].
  destruct (main_aborted ascii_stdout_env 1 three_channels_world empty_sys log' sys' Hrun)
    as (done & playlist & channel_name & rest & log0 & sys0 & Hrest).
  exists log', sys', done, playlist, channel_name, rest, log0, sys0.
  split; [reflexivity|exact Hrest].
Defined.

(** The two ways the script is cut short, run: a listing that fails for
    the second channel leaves the first channel's file and confirmation;
    a standard output that cannot take the check mark leaves the first
    channel's file written and nothing printed. *)
Example main_cut_short :
  match main_in permissive_env 1 second_channel_down_world empty_sys,
        main_in ascii_stdout_env 1 three_channels_world empty_sys with
  | Aborted _ sys1, Aborted _ sys2 =>
      Some (stdout sys1, fst <$> map_to_list (files sys1),
            stdout sys2, fst <$> map_to_list (files sys2))
  | _, _ => None
  end = Some (["✅ CSV file saved as Ben Heath.csv"], ["Ben Heath.csv"],
              [], ["Ben Heath.csv"]).
Proof. vm_compute. reflexivity. Qed.

(** ** Where the views come from *)

(** X16: the [views] of a returned record is read from the response to
    the statistics call of its own batch only: it is the count of the last
    item of that response carrying the record's identifier, and the
    string [0] when that response carries none. *)
Theorem get_video_data_views_value (fuel : nat) (w : World) (playlist_id : string)
    (out : list (gmap string string)) (log2 : Log) :
  get_video_data fuel w playlist_id empty_log = Returns out log2 ->
  forall t record, out !! t = Some record ->
    exists vid data,
      record !! "video_id" = Some vid /\
      stats_response w log2 (t / 50) = Some data /\
      record !! "views" =
        Some (default "0"
                (viewCount <$> last (filter (fun item => item_id item = vid)
                                            (stat_items data)))).
Proof.
  intros Hrun t record Hrecord.
  destruct (get_video_data_record _ _ _ _ _ _ _ Hrun Hrecord)
    as (video & vid & data & Hvid & Hdata & ->).
  exists vid, data. split; [by rewrite lookup_insert_ne|]. split; [exact Hdata|].
  rewrite lookup_insert_eq, collect_stats_last. reflexivity.
Qed.

(** X16, on a response that reports one video twice and one not at all. *)
Lemma get_video_data_views_value_witness :
  exists out log2,
    get_video_data 3 twice_world "PL" empty_log = Returns out log2 /\
    forall t record, out !! t = Some record ->
      exists vid data,
        record !! "video_id" = Some vid /\
        stats_response twice_world log2 (t / 50) = Some data /\
        record !! "views" =
          Some (default "0"
                  (viewCount <$> last (filter (fun item => item_id item = vid)
                                              (stat_items data)))).
Proof.
  assert (Hret : returned (get_video_data 3 twice_world "PL" empty_log) = true)
    by (vm_compute; reflexivity).
  destruct (get_video_data 3 twice_world "PL" empty_log) as [out log2| |] eqn:Hrun;
    [|discriminate Hret..].
  exists out, log2. split; [reflexivity|].
  apply (get_video_data_views_value 3 twice_world "PL" out log2 Hrun).
Defined.

(** The run against the response that reports a video twice: the later
    count wins, the video that is not reported gets the fallback. *)
Example views_of_twice_world :
  match get_video_data 3 twice_world "PL" empty_log with
  | Returns out _ => (fun record : gmap string string => record !! "views") <$> out
  | _ => []
  end = [Some "2"; Some "5"; Some "0"].
Proof. vm_compute. reflexivity. Qed.
